(** * extract_logs: date index and chunked extraction over a log file

    A shallow embedding of [src/extract_logs.py].  The log file is a byte
    sequence, the two index artifacts are optional texts, a Python [dict]
    from date to offset is a [gmap string Z], and offsets are Python
    integers ([Z]).  Exceptions are values of [exn]. *)

From Stdlib Require Import ZArith Ascii String Strings.Byte.
From Stdlib Require Import DecimalString DecimalPos DecimalZ.
From stdpp Require Import gmap strings list sorting.

Local Open Scope Z_scope.

(** ** Python values *)

(** [bytes] objects, as read from a file opened with ["rb"]. *)
Abbreviation bytes := (list byte).

(** Exceptions the program can meet.  [ValueError]: [int()] on a malformed
    numeral, a position that is no [off_t], a file name with a NUL.
    [OSError]: a seek to a negative position, a file that cannot be
    created. *)
Inductive exn := ValueError | OSError.

Inductive result (A : Type) :=
  | Ok (a : A)
  | Raise (e : exn).
Arguments Ok {A} a.
Arguments Raise {A} e.

Definition LF : ascii := "010"%char.
Definition CR : ascii := "013"%char.
Definition nl : string := String LF "".

(** [str.isspace] on the characters a [string] can hold (code points below
    256): TAB to CR, FS to US, space, NEL and NBSP. *)
Definition py_isspace (c : ascii) : bool :=
  let n := N_of_ascii c in
  ((9 <=? n) && (n <=? 13) || (28 <=? n) && (n <=? 32) || (n =? 133) || (n =? 160))%N.

Fixpoint py_lstrip (s : string) : string :=
  match s with
  | EmptyString => EmptyString
  | String c r => if py_isspace c then py_lstrip r else s
  end.

Fixpoint py_rstrip (s : string) : string :=
  match s with
  | EmptyString => EmptyString
  | String c r =>
      match py_rstrip r with
      | EmptyString => if py_isspace c then EmptyString else String c EmptyString
      | r' => String c r'
      end
  end.

(** [s.strip()] *)
Definition py_strip (s : string) : string := py_rstrip (py_lstrip s).

(** [s.split()]: the maximal runs of non-whitespace characters. *)
Fixpoint py_split (s : string) : list string :=
  match s with
  | EmptyString => []
  | String c r =>
      if py_isspace c then py_split r
      else
        match r with
        | EmptyString => [String c EmptyString]
        | String c' _ =>
            if py_isspace c' then String c EmptyString :: py_split r
            else
              match py_split r with
              | w :: ws => String c w :: ws
              | [] => [String c EmptyString]
              end
        end
  end.

(** [s.startswith(p)] *)
Definition startswith (s p : string) : bool := String.prefix p s.

(** [s[:10]] *)
Definition first10 (s : string) : string := String.substring 0 10 s.

(** [a > b] on [str]: lexicographic on code points. *)
Definition py_gt (a b : string) : bool := String.ltb b a.

(** [str(n)] for an [int].  The interpreter's cap on the length of a
    numeral ([sys.set_int_max_str_digits], 4300 digits unless changed) is
    taken as lifted, here and in [py_int]; [max_str_digits] is what a
    statement that depends on it assumes. *)
Definition py_str (n : Z) : string := NilZero.string_of_int (Z.to_int n).

Definition is_digit (c : ascii) : bool :=
  let n := N_of_ascii c in ((48 <=? n) && (n <=? 57))%N.

(** The digits of a numeral body: single underscores are allowed between
    digits and dropped; anything else is refused.  [prev] tells whether the
    previous character was a digit. *)
Fixpoint numeral_digits (prev : bool) (s : string) : option string :=
  match s with
  | EmptyString => if prev then Some EmptyString else None
  | String c r =>
      if is_digit c then String c <$> numeral_digits true r
      else if Ascii.eqb c "_" && prev then numeral_digits false r
      else None
  end.

Definition unsigned_int (s : string) : option Z :=
  ds ← numeral_digits false s;
  u ← NilEmpty.uint_of_string ds;
  Some (Z.of_uint u).

(** [int(s)] for a [str]: surrounding whitespace, an optional sign, decimal
    digits.  [None] stands for [ValueError]. *)
Definition py_int (s : string) : option Z :=
  match py_strip s with
  | String "-" r => Z.opp <$> unsigned_int r
  | String "+" r => unsigned_int r
  | t => unsigned_int t
  end.

(** The lines a text-mode file yields under [for line in f]: universal
    newlines, so LF, CR and CR LF all end a line and read as LF. *)
Fixpoint text_lines (s : string) : list string :=
  match s with
  | EmptyString => []
  | String c r =>
      if Ascii.eqb c LF then nl :: text_lines r
      else if Ascii.eqb c CR then
        match r with
        | EmptyString => [nl]
        | String c' r' =>
            if Ascii.eqb c' LF then nl :: text_lines r' else nl :: text_lines r
        end
      else
        match text_lines r with
        | [] => [String c EmptyString]
        | l :: ls => String c l :: ls
        end
  end.

(** Whether a text holds the character [c]. *)
Fixpoint has_char (c : ascii) (s : string) : bool :=
  match s with
  | EmptyString => false
  | String c' r => Ascii.eqb c c' || has_char c r
  end.

Definition NUL : ascii := "000"%char.

(** The number of bytes of the UTF-8 encoding of a text: one for a
    character below 128, two for the others a [string] can hold. *)
Fixpoint utf8_length (s : string) : nat :=
  match s with
  | EmptyString => 0
  | String c r => ((if (N_of_ascii c <? 128)%N then 1 else 2) + utf8_length r)%nat
  end.

(** The longest file name, in bytes, of the usual file systems. *)
Definition NAME_MAX : nat := 255.

(** [sorted(index.keys())] *)
Definition sorted_keys (index : gmap string Z) : list string :=
  merge_sort String.le (elements (dom index)).

(** ** Binary reads *)

Definition is_lf (b : byte) : bool := Byte.eqb b x0a.

(** One [f.readline()] on the bytes after the handle's position: the line,
    terminator included, and the bytes after it.  The empty line is the end
    of file. *)
Fixpoint readline (bs : bytes) : bytes * bytes :=
  match bs with
  | [] => ([], [])
  | b :: r =>
      if is_lf b then ([b], r)
      else let '(l, r') := readline r in (b :: l, r')
  end.

(** The successive non-empty results of [f.readline()] up to end of file. *)
Fixpoint readlines (bs : bytes) : list bytes :=
  match bs with
  | [] => []
  | b :: r =>
      if is_lf b then [b] :: readlines r
      else
        match readlines r with
        | [] => [[b]]
        | l :: ls => (b :: l) :: ls
        end
  end.

(** [os.path.getsize] *)
Definition getsize (file : bytes) : Z := Z.of_nat (length file).

(** The least and the greatest [off_t], a signed 64-bit integer. *)
Definition off_t_min : Z := -9223372036854775808.
Definition off_t_max : Z := 9223372036854775807.

(** Whether a position converts to an [off_t].  The size of a file is an
    [off_t] itself, so every position up to the size of the file does. *)
Definition fits_off_t (file : bytes) (pos : Z) : bool :=
  (off_t_min <=? pos) && ((pos <=? off_t_max) || (pos <=? getsize file)).

(** [f.seek(pos)] then read: what lies from [pos] on (nothing past the end).
    A position that does not convert to an [off_t] is refused with
    [ValueError]; a negative one that converts is refused by the system
    call, with [OSError]. *)
Definition seek (file : bytes) (pos : Z) : result bytes :=
  if negb (fits_off_t file pos) then Raise ValueError
  else if pos <? 0 then Raise OSError
  else Ok (drop (Z.to_nat pos) file).

(** ** Index Store: loading *)

Fixpoint load_index_lines (lines : list string) (index : gmap string Z)
  : result (gmap string Z) :=
  match lines with
  | [] => Ok index
  | line :: rest =>
      match py_split (py_strip line) with
      | [date; offset] =>
          match py_int offset with
          | Some n => load_index_lines rest (<[date := n]> index)
          | None => Raise ValueError
          end
      | _ => load_index_lines rest index
      end
  end.

(** [load_index] on the text of the entry list: [None] is a path that does
    not exist. *)
Definition load_index (index_file : option string) : result (gmap string Z) :=
  match index_file with
  | None => Ok ∅
  | Some text => load_index_lines (text_lines text) ∅
  end.

(** [load_index] on the entry list as the file system holds it, a byte
    string.  The file is opened with ["r"]: [read_text] is the codec of that
    mode, which gives the text of the bytes, or [None] where they do not
    decode and the read raises [UnicodeDecodeError], a [ValueError]. *)
Definition load_index_file (read_text : bytes -> option string)
    (raw : option bytes) : result (gmap string Z) :=
  match raw with
  | None => Ok ∅
  | Some bs =>
      match read_text bs with
      | None => Raise ValueError
      | Some text => load_index (Some text)
      end
  end.

(** The default cap of the interpreter on the digits of a numeral. *)
Definition max_str_digits : nat := 4300.

(** No second field of a two-field line of the text is longer than the
    cap. *)
Definition short_numerals (text : string) : bool :=
  forallb (fun line =>
             match py_split (py_strip line) with
             | [_; offset] => (String.length offset <=? max_str_digits)%nat
             | _ => true
             end)
          (text_lines text).

(** The watermark read at the head of [update_index]: [0] when the artifact
    is missing, or when reading it as an integer raises. *)
Definition read_last_processed_offset (index_info_file : option string) : Z :=
  match index_info_file with
  | None => 0
  | Some text =>
      match py_int (py_strip text) with
      | Some n => n
      | None => 0
      end
  end.

(** ** Range Resolver *)

Definition get_date_range (target_date : string) (index : gmap string Z)
    (log_file : bytes) : option (Z * Z) :=
  match index !! target_date with
  | None => None
  | Some start_offset =>
      let sorted_dates := sorted_keys index in
      let next_date := List.find (fun date => py_gt date target_date) sorted_dates in
      let end_offset :=
        match next_date with
        | Some (String c r as d) => index !!! d
        | _ => getsize log_file
        end in
      Some (start_offset, end_offset)
  end.

(** ** Files and console *)

(** What the program prints, one constructor per [print] site. *)
Inductive message :=
  | IndexBuilt (last_offset : Z)
  | NoNewLogs
  | IndexUpdated
  | NoNewDates
  | IndexFileNotFound
  | TargetNotFound (target_date : string)
  | OffsetFor (target_date : string) (offset : Z)
  | NoLogsFound (target_date : string)
  | PrintInt (n : Z)
  | NoData
  | LogsSaved (target_date : string).

(** The files the program touches.  An artifact that does not exist is
    [None]; [output_files] maps a target date [d] to the text of
    [output_<d>.txt]. *)
Record world := World {
  log_file : bytes;
  index_file : option string;
  index_info_file : option string;
  output_files : gmap string string;
  stdout : list message
}.

Definition set_index (t : option string) (w : world) : world :=
  World (log_file w) t (index_info_file w) (output_files w) (stdout w).
Definition set_index_info (t : option string) (w : world) : world :=
  World (log_file w) (index_file w) t (output_files w) (stdout w).
Definition set_output (d t : string) (w : world) : world :=
  World (log_file w) (index_file w) (index_info_file w)
        (<[d := t]> (output_files w)) (stdout w).
Definition print (m : message) (w : world) : world :=
  World (log_file w) (index_file w) (index_info_file w) (output_files w)
        (stdout w ++ [m]).

(** One entry line, [f"{date} {offset}\n"]. *)
Definition entry_line (date : string) (offset : Z) : string :=
  date +:+ " " +:+ py_str offset +:+ nl.

(** The text that the writes of [f"{date} {index[date]}\n"] leave, for the
    dates taken in the given order. *)
Definition entries_text (index : gmap string Z) (dates : list string) : string :=
  foldr (fun date t => entry_line date (index !!! date) +:+ t) "" dates.

(** The text written by the loop over [sorted(index.keys())]. *)
Definition entry_lines (index : gmap string Z) : string :=
  entries_text index (sorted_keys index).

(** Opening with ["a"]: append to the text, creating the file if need be. *)
Definition append_text (old : option string) (t : string) : option string :=
  Some (default "" old +:+ t).

Section Decode.

(** [line.decode("utf-8", errors="ignore")], which never raises. *)
Variable decode : bytes -> string.

(** ** Index Builder *)

(** The date key the scan takes from a line, if any. *)
Definition date_key (line : bytes) : option string :=
  let line_str := decode line in
  if (String.length line_str <? 10)%nat then None
  else Some (first10 line_str).

(** The [while True] scan of [build_index]; [offset] is [f.tell()] and
    [lines] are the reads still to come. *)
Fixpoint build_index_scan (offset : Z) (lines : list bytes)
    (index : gmap string Z) : gmap string Z :=
  match lines with
  | [] => index
  | line :: rest =>
      let next := offset + Z.of_nat (length line) in
      let line_str := decode line in
      if (String.length line_str <? 10)%nat then build_index_scan next rest index
      else
        let date := first10 line_str in
        match index !! date with
        | None => build_index_scan next rest (<[date := offset]> index)
        | Some _ => build_index_scan next rest index
        end
  end.

(** The dictionary [build_index] holds when its scan ends. *)
Definition built_index (file : bytes) : gmap string Z :=
  build_index_scan 0 (readlines file) ∅.

Definition build_index (w : world) : world :=
  let index := built_index (log_file w) in
  let w := set_index (Some (entry_lines index)) w in
  let last_offset := getsize (log_file w) in
  let w := set_index_info (Some (py_str last_offset)) w in
  print (IndexBuilt last_offset) w.

(** ** Index Updater *)

Fixpoint update_index_scan (offset : Z) (lines : list bytes)
    (index new_entries : gmap string Z) : gmap string Z :=
  match lines with
  | [] => new_entries
  | line :: rest =>
      let next := offset + Z.of_nat (length line) in
      let line_str := decode line in
      if (String.length line_str <? 10)%nat
      then update_index_scan next rest index new_entries
      else
        let date := first10 line_str in
        match index !! date, new_entries !! date with
        | None, None =>
            update_index_scan next rest index (<[date := offset]> new_entries)
        | _, _ => update_index_scan next rest index new_entries
        end
  end.

(** A run ends by returning or by raising; the files are as the run left
    them either way. *)
Definition run : Type := world * option exn.

Definition update_index (w : world) : run :=
  match load_index (index_file w) with
  | Raise e => (w, Some e)
  | Ok index =>
      let last_processed_offset :=
        read_last_processed_offset (index_info_file w) in
      let current_size := getsize (log_file w) in
      if current_size <=? last_processed_offset then (print NoNewLogs w, None)
      else
        match seek (log_file w) last_processed_offset with
        | Raise e => (w, Some e)
        | Ok rest =>
            let new_entries :=
              update_index_scan last_processed_offset (readlines rest) index ∅ in
            let w :=
              if decide (new_entries = ∅) then print NoNewDates w
              else print IndexUpdated
                     (set_index (append_text (index_file w)
                                             (entry_lines new_entries)) w) in
            (set_index_info (Some (py_str current_size)) w, None)
        end
  end.

(** ** Parallel Extractor *)

Definition keep (target_date : string) (line : bytes) : list string :=
  let line_str := decode line in
  if startswith line_str target_date then [line_str] else [].

(** The [while True] loop of [process_chunk]; [pos] is [f.tell()]. *)
Fixpoint process_chunk_scan (pos : Z) (lines : list bytes)
    (chunk_end : Z) (target_date : string) : list string :=
  match lines with
  | [] => []
  | line :: rest =>
      if chunk_end <=? pos then keep target_date line
      else keep target_date line ++
           process_chunk_scan (pos + Z.of_nat (length line)) rest
                              chunk_end target_date
  end.

Definition process_chunk (file : bytes) (chunk_start chunk_end : Z)
    (target_date : string) : result (list string) :=
  match seek file chunk_start with
  | Raise e => Raise e
  | Ok rest =>
      let lines := readlines rest in
      if chunk_start =? 0
      then Ok (process_chunk_scan chunk_start lines chunk_end target_date)
      else
        match lines with
        | [] => Ok (process_chunk_scan chunk_start [] chunk_end target_date)
        | partial :: lines' =>
            Ok (process_chunk_scan (chunk_start + Z.of_nat (length partial))
                                   lines' chunk_end target_date)
        end
  end.

Definition num_workers : Z := 4.

(** The task list built in [extract_logs], for [W] workers. *)
Definition tasks_for (W start_offset end_offset : Z) : list (Z * Z) :=
  let total_bytes := Z.abs (end_offset - start_offset) in
  let chunk_size := total_bytes `div` W in
  (fun i : nat =>
     let i := Z.of_nat i in
     (start_offset + i * chunk_size,
      if i =? W - 1 then end_offset else start_offset + (i + 1) * chunk_size))
  <$> seq 0 (Z.to_nat W).

(** [pool.map(process_chunk, tasks)]: results in task order, and the first
    exception of a worker is raised again in the caller. *)
Fixpoint pool_map (file : bytes) (target_date : string) (tasks : list (Z * Z))
  : result (list (list string)) :=
  match tasks with
  | [] => Ok []
  | (chunk_start, chunk_end) :: rest =>
      match process_chunk file chunk_start chunk_end target_date with
      | Raise e => Raise e
      | Ok chunk =>
          match pool_map file target_date rest with
          | Raise e => Raise e
          | Ok results => Ok (chunk :: results)
          end
      end
  end.

(** What [writelines] puts in the output file for the chunk results. *)
Definition output_text (results : list (list string)) : string :=
  foldr String.append "" (concat results).

(** Opening [output_<target_date>.txt] in the output directory for writing:
    the exception it raises, if any.  The directory holds the output files
    and nothing else.  A name with a NUL is refused with [ValueError] before
    the system is asked; a date with a [/] makes the path lead through a
    directory that is not there, and a name of more than [NAME_MAX] bytes is
    refused by the file system, both with [OSError]. *)
Definition open_output (target_date : string) : option exn :=
  if has_char NUL target_date then Some ValueError
  else if has_char "/" target_date then Some OSError
  else if (NAME_MAX <? utf8_length ("output_" +:+ target_date +:+ ".txt"))%nat
       then Some OSError
  else None.

Definition ensure_index (w : world) : run :=
  match index_file w with
  | None => (build_index (print IndexFileNotFound w), None)
  | Some _ => update_index w
  end.

Definition extract_logs_with (W : Z) (target_date : string) (w : world) : run :=
  match ensure_index w with
  | (w, Some e) => (w, Some e)
  | (w, None) =>
      match load_index (index_file w) with
      | Raise e => (w, Some e)
      | Ok index =>
          match index !! target_date with
          | None => (print (TargetNotFound target_date) w, None)
          | Some offset =>
              let w := print (OffsetFor target_date offset) w in
              match get_date_range target_date index (log_file w) with
              | None => (print (NoLogsFound target_date) w, None)
              | Some (start_offset, end_offset) =>
                  let total_bytes := Z.abs (end_offset - start_offset) in
                  let w := print (PrintInt start_offset)
                             (print (PrintInt end_offset) w) in
                  if total_bytes <=? 0 then (print NoData w, None)
                  else
                    match pool_map (log_file w) target_date
                            (tasks_for W start_offset end_offset) with
                    | Raise e => (w, Some e)
                    | Ok results =>
                        match open_output target_date with
                        | Some e => (w, Some e)
                        | None =>
                            (print (LogsSaved target_date)
                               (set_output target_date (output_text results) w),
                             None)
                        end
                    end
              end
          end
      end
  end.

Definition extract_logs : string -> world -> run := extract_logs_with num_workers.

End Decode.

(** The codec on 7-bit text, where decoding is the identity on bytes. *)
Definition decode_ascii (bs : bytes) : string := string_of_list_byte bs.

(** The codec on byte strings whose bytes from 128 on are each invalid in
    UTF-8, as [0xFF] is wherever it stands: with [errors="ignore"] these
    bytes are dropped and the 7-bit bytes are the characters. *)
Definition decode_ignore (bs : bytes) : string :=
  string_of_list_byte (List.filter (fun b => (Byte.to_N b <? 128)%N) bs).

(** The strict codec of text mode on 7-bit text: a byte from 128 on does
    not decode. *)
Definition read_ascii (bs : bytes) : option string :=
  if forallb (fun b => (Byte.to_N b <? 128)%N) bs
  then Some (string_of_list_byte bs) else None.

(** A log file from its records, each written with its line terminator. *)
Definition log_of (records : list string) : bytes :=
  concat ((fun r => list_byte_of_string r ++ [x0a]) <$> records).

(** ** Specification vocabulary *)

(** [a < b] on [str]. *)
Definition str_lt (a b : string) : Prop := String.le a b /\ a <> b.

(** [d] is the smallest indexed date strictly after [target]. *)
Definition least_later (index : gmap string Z) (target d : string) : Prop :=
  d ∈ dom index /\ str_lt target d /\
  forall d', d' ∈ dom index -> str_lt target d' -> String.le d d'.

(** The reads of a scan paired with the value of [f.tell()] before each. *)
Fixpoint with_offsets (offset : Z) (lines : list bytes) : list (Z * bytes) :=
  match lines with
  | [] => []
  | line :: rest =>
      (offset, line) :: with_offsets (offset + Z.of_nat (length line)) rest
  end.

(** The lines of a file, each with the byte offset where it begins. *)
Definition file_lines (file : bytes) : list (Z * bytes) :=
  with_offsets 0 (readlines file).

(** Some line of the file that begins at [offset] has date key [date]. *)
Definition date_at (decode : bytes -> string) (file : bytes) (date : string)
    (offset : Z) : Prop :=
  exists line, (offset, line) ∈ file_lines file /\ date_key decode line = Some date.

(** What the extraction is to deliver: the decoded lines of the file that
    begin in [[start_offset, end_offset)] and carry the target date as their
    date key, in file order. *)
Definition lines_of_date (decode : bytes -> string) (file : bytes)
    (start_offset end_offset : Z) (target_date : string) : list string :=
  (fun ol => decode ol.2) <$>
  filter (fun ol => start_offset <= ol.1 < end_offset /\
                    date_key decode ol.2 = Some target_date)
         (file_lines file).

(** A run that begins with the log file alone: no index artifacts, no
    outputs, nothing printed. *)
Definition fresh (log : bytes) : world := World log None None ∅ [].

(** The file of the specification's scenario. *)
Definition scenario_log : bytes :=
  log_of ["2024-01-01 a"; "2024-01-01 b"; "2024-01-02 c"].

(** A file whose first line begins with a byte that does not decode. *)
Definition invalid_byte_log : bytes :=
  xff :: log_of ["2024-01-01 a"; "2024-01-01 b"].

(** A file whose second date begins at byte 13. *)
Definition second_date_log : bytes :=
  log_of ["2024-01-01 a"; "2024-01-02 b"; "2024-01-02 c"].

(** The offset of the first listed line with date key [date]. *)
Definition first_with (decode : bytes -> string) (date : string)
    (ols : list (Z * bytes)) : option Z :=
  fst <$> List.find (fun ol => bool_decide (date_key decode ol.2 = Some date)) ols.

(** A text without whitespace, as a date key [YYYY-MM-DD] is. *)
Fixpoint no_space (s : string) : bool :=
  match s with
  | EmptyString => true
  | String c r => negb (py_isspace c) && no_space r
  end.

Fixpoint all_digits (s : string) : bool :=
  match s with
  | EmptyString => true
  | String c r => is_digit c && all_digits r
  end.

Fixpoint no_newline (s : string) : bool :=
  match s with
  | EmptyString => true
  | String c r => negb (Ascii.eqb c LF) && negb (Ascii.eqb c CR) && no_newline r
  end.

(** A key that survives the entry list: non-empty and free of whitespace. *)
Definition plain_key (date : string) : Prop := no_space date = true /\ date <> "".

(** A log file made of whole records: empty, or ending with a line
    terminator. *)
Definition complete_records (file : bytes) : Prop :=
  file = [] \/ last file = Some x0a.

(** The date keys of the lines of a file, in file order. *)
Definition dates_of (decode : bytes -> string) (file : bytes) : list string :=
  omap (date_key decode) (readlines file).

(** Records appended to the log file by its writer. *)
Definition append_log (appended : bytes) (w : world) : world :=
  World (log_file w ++ appended) (index_file w) (index_info_file w)
        (output_files w) (stdout w).

(** The appended records of the specification's second scenario. *)
Definition appended_records : bytes :=
  log_of ["2024-01-02 d"; "2024-01-03 e"].

(** A log file whose last record has not been terminated yet, and the bytes
    that complete it. *)
Definition unfinished_log : bytes :=
  log_of ["2024-01-01 a"] ++ list_byte_of_string "2024-01-02 request-".
Definition finishing_bytes : bytes := log_of ["id=12345678 done"].

(** Records whose first ten characters hold blanks. *)
Definition spaced_log : bytes := log_of ["Jan  1 12:00:00 boot"].
Definition spaced_records : bytes := log_of ["Jan  1 12:00:05 ready"].

(** ** Chunks and tasks *)

(** The line at offset [o] is reached by a scan that stops after the first
    line beginning at or past [chunk_end]: every listed line before it begins
    before [chunk_end]. *)
Definition scanned_before (chunk_end : Z) (ols : list (Z * bytes)) (o : Z) : Prop :=
  Forall (fun ol : Z * bytes => ol.1 < o -> ol.1 < chunk_end) ols.

(** The lines a worker can deliver: all of them when it starts at the head
    of the file, else those that begin after its start. *)
Definition after_start (chunk_start : Z) (ols : list (Z * bytes)) : list (Z * bytes) :=
  filter (fun ol : Z * bytes => chunk_start = 0 \/ chunk_start < ol.1) ols.



(** The lines of the file a worker on [[chunk_start, chunk_end)] reads in
    its loop. *)
Definition chunk_reads (file : bytes) (chunk_start chunk_end : Z) (ol : Z * bytes) : Prop :=
  ol ∈ after_start chunk_start (file_lines file) /\
  scanned_before chunk_end (after_start chunk_start (file_lines file)) ol.1.

(** Tasks that tile [[a, b)]: each begins where the one before ends. *)
Fixpoint tiles (a b : Z) (tasks : list (Z * Z)) : Prop :=
  match tasks with
  | [] => False
  | (s, e) :: rest =>
      s = a /\
      match rest with
      | [] => e = b
      | _ :: _ => a <= e /\ e < b /\ tiles e b rest
      end
  end.

(** * Properties *)

(** ** Order on [str] *)

Lemma py_gt_spec a b : py_gt a b = true <-> str_lt b a.
Proof.
  unfold py_gt, str_lt, String.le, String.ltb, String.leb.
  destruct (String.compare b a) eqn:E; simpl.
  - apply String.compare_eq_iff in E. subst. split; [done | intros [_ H]; done].
  - split; [intros _ | done]. split; [done |].
    intros ->. pose proof (String.compare_antisym a a) as H.
    rewrite E in H. discriminate H.
  - split; [done | intros [H _]; done].
Qed.

Lemma sorted_keys_sorted index : StronglySorted String.le (sorted_keys index).
Proof. apply StronglySorted_merge_sort; apply _. Qed.

Lemma elem_of_sorted_keys index d : d ∈ sorted_keys index <-> d ∈ dom index.
Proof.
  unfold sorted_keys. rewrite merge_sort_Permutation. apply elem_of_elements.
Qed.

Lemma NoDup_sorted_keys index : NoDup (sorted_keys index).
Proof.
  unfold sorted_keys. rewrite merge_sort_Permutation. apply NoDup_elements.
Qed.

(** The first element of a sorted list that passes a test is the least
    element that passes it. *)
Lemma find_sorted_least (P : string -> bool) l d :
  StronglySorted String.le l -> List.find P l = Some d ->
  d ∈ l /\ P d = true /\ forall d', d' ∈ l -> P d' = true -> String.le d d'.
Proof.
  induction 1 as [|x l Hs IH Hall]; simpl; [done |].
  destruct (P x) eqn:Px.
  - intros [= <-]. split; [left |]. split; [done |].
    intros d' Hd' _. apply elem_of_cons in Hd' as [-> | Hd']; [done |].
    rewrite Forall_forall in Hall. by apply Hall.
  - intros Hf. destruct (IH Hf) as (Hin & Pd & Hleast).
    split; [by right |]. split; [done |].
    intros d' Hd' Pd'. apply elem_of_cons in Hd' as [-> | Hd']; [congruence |].
    by apply Hleast.
Qed.

Lemma find_none_all (P : string -> bool) l d :
  List.find P l = None -> d ∈ l -> P d = false.
Proof.
  induction l as [|x l IH]; simpl; [by intros _ ?%elem_of_nil |].
  destruct (P x) eqn:Px; [done |].
  intros Hf [-> | Hd]%elem_of_cons; auto.
Qed.

(** ** Range Resolver *)

(** C3. [get_date_range] answers "not found" exactly when the target date has
    no entry; otherwise the range starts at the target's stored offset and
    ends at the stored offset of the smallest indexed date strictly greater
    than the target, or at the size of the log file when the index holds no
    greater date. *)
Theorem get_date_range_spec (target : string) (index : gmap string Z) (log : bytes) :
  match index !! target with
  | None => get_date_range target index log = None
  | Some start =>
      exists end_offset,
        get_date_range target index log = Some (start, end_offset) /\
        ((exists d, least_later index target d /\ index !! d = Some end_offset) \/
         ((forall d, d ∈ dom index -> ~ str_lt target d) /\
          end_offset = getsize log))
  end.
Proof.
  unfold get_date_range.
  destruct (index !! target) as [start|] eqn:Ht; [| done].
  destruct (List.find _ _) as [d|] eqn:Hf.
  - apply find_sorted_least in Hf as (Hin & Hgt & Hleast);
      [| apply sorted_keys_sorted].
    apply elem_of_sorted_keys in Hin. apply py_gt_spec in Hgt.
    destruct d as [|c r].
    { destruct Hgt as [Hle Hne]. exfalso. apply Hne.
      destruct target; [done | by vm_compute in Hle]. }
    apply elem_of_dom in Hin as Hsome. destruct Hsome as [e He].
    exists e. split.
    + by rewrite lookup_total_alt, He.
    + left. exists (String c r). split; [| done].
      split; [done |]. split; [done |].
      intros d' Hd' Hlt. apply Hleast; [by apply elem_of_sorted_keys |].
      by apply py_gt_spec.
  - exists (getsize log). split; [done |]. right. split; [| done].
    intros d Hd Hlt. apply py_gt_spec in Hlt.
    apply elem_of_sorted_keys in Hd.
    by rewrite (find_none_all _ _ _ Hf Hd) in Hlt.
Qed.

(** ** Index Store: loading *)

Lemma load_index_lines_skip pre line post index :
  length (py_split (py_strip line)) <> 2%nat ->
  load_index_lines (pre ++ line :: post) index =
  load_index_lines (pre ++ post) index.
Proof.
  intros Hn. revert index. induction pre as [|l pre IH]; intros index; simpl.
  - destruct (py_split (py_strip line)) as [|a [|b [|c q]]]; done.
  - destruct (py_split (py_strip l)) as [|a [|b [|c q]]]; auto.
    destruct (py_int b); auto.
Qed.

Lemma load_index_lines_raises lines index line date offset :
  line ∈ lines ->
  py_split (py_strip line) = [date; offset] ->
  py_int offset = None ->
  load_index_lines lines index = Raise ValueError.
Proof.
  intros Hin Hs Hi. revert index.
  induction lines as [|l lines IH]; intros index; [by apply elem_of_nil in Hin |].
  apply elem_of_cons in Hin as [<- | Hin]; simpl.
  - by rewrite Hs, Hi.
  - destruct (py_split (py_strip l)) as [|a [|b [|c q]]]; auto.
    destruct (py_int b); auto.
Qed.

(** C8. Loading is defensive: an entry list that does not exist loads as the
    empty index; an entry line that does not split into exactly two fields is
    passed over, wherever it stands, and the load goes on as if the line were
    not there; a watermark artifact that is missing, or whose text is not an
    integer, reads as 0. *)
Theorem load_index_defensive :
  load_index None = Ok ∅ /\
  (forall pre line post index,
     length (py_split (py_strip line)) <> 2%nat ->
     load_index_lines (pre ++ line :: post) index =
     load_index_lines (pre ++ post) index) /\
  read_last_processed_offset None = 0 /\
  (forall text, py_int (py_strip text) = None ->
     read_last_processed_offset (Some text) = 0).
Proof.
  split; [done |]. split; [apply load_index_lines_skip |]. split; [done |].
  intros text H. unfold read_last_processed_offset. by rewrite H.
Qed.

(** C10. [load_index] is not total: an entry list with a line of exactly two
    fields whose second field is not an integer makes it raise [ValueError],
    whatever the other lines are; the artifact ["2024-01-01 abc\n"] is one. *)
Theorem load_index_not_total :
  (exists text line date offset,
     line ∈ text_lines text /\
     py_split (py_strip line) = [date; offset] /\
     py_int offset = None /\
     load_index (Some text) = Raise ValueError) /\
  (forall text line date offset,
     line ∈ text_lines text ->
     py_split (py_strip line) = [date; offset] ->
     py_int offset = None ->
     load_index (Some text) = Raise ValueError).
Proof.
  split.
  - exists ("2024-01-01 abc" +:+ nl), ("2024-01-01 abc" +:+ nl), "2024-01-01", "abc".
    split; [vm_compute; left |]. by vm_compute.
  - intros text line date offset Hin Hs Hi. unfold load_index.
    by eapply load_index_lines_raises.
Qed.

(** ** Index Builder *)

(** C5. [build_index] reads only the log file and overwrites both artifacts:
    a second build on the unmodified file leaves the entry list and the
    watermark exactly as the first build wrote them. *)
Theorem build_index_idempotent (decode : bytes -> string) (w : world) :
  let w1 := build_index decode w in
  let w2 := build_index decode w1 in
  log_file w1 = log_file w /\
  index_file w2 = index_file w1 /\
  index_info_file w2 = index_info_file w1 /\
  index_file w1 = Some (entry_lines (built_index decode (log_file w))) /\
  index_info_file w1 = Some (py_str (getsize (log_file w))).
Proof. by destruct w. Qed.

(** ** Index Updater *)

(** C6. When the log file is no larger than the watermark, [update_index]
    writes nothing: the log, the entry list, the watermark and the outputs
    are as before.  If moreover the entry list loads, the call returns
    without raising, and all it does is print that there are no new logs. *)
Theorem update_index_noop (decode : bytes -> string) (w : world) :
  getsize (log_file w) <= read_last_processed_offset (index_info_file w) ->
  (let w' := fst (update_index decode w) in
   log_file w' = log_file w /\ index_file w' = index_file w /\
   index_info_file w' = index_info_file w /\
   output_files w' = output_files w) /\
  (forall index, load_index (index_file w) = Ok index ->
     update_index decode w = (print NoNewLogs w, None)).
Proof.
  intros Hle. apply Z.leb_le in Hle. unfold update_index.
  destruct (load_index (index_file w)) as [index | e]; rewrite ?Hle.
  - split; [by destruct w | done].
  - split; [by destruct w | done].
Qed.

(** ** Extraction of a date that is not indexed *)

Lemma update_index_output_files decode w :
  output_files (fst (update_index decode w)) = output_files w.
Proof.
  unfold update_index.
  destruct (load_index (index_file w)); [| done].
  destruct (_ <=? _); [done |].
  destruct (seek _ _); [| done].
  by destruct (decide _).
Qed.

Lemma ensure_index_output_files decode w :
  output_files (fst (ensure_index decode w)) = output_files w.
Proof.
  unfold ensure_index. destruct (index_file w);
    [apply update_index_output_files | done].
Qed.

(** C9. When the index that [extract_logs] loads, after its build or update
    step, has no entry for the target date, the call prints that the target
    was not found and returns without raising; no output file is written. *)
Theorem extract_logs_not_found (decode : bytes -> string) (target : string)
    (w w1 : world) (index : gmap string Z) :
  ensure_index decode w = (w1, None) ->
  load_index (index_file w1) = Ok index ->
  index !! target = None ->
  extract_logs decode target w = (print (TargetNotFound target) w1, None) /\
  output_files (fst (extract_logs decode target w)) = output_files w.
Proof.
  intros He Hl Ht. unfold extract_logs, extract_logs_with.
  rewrite He, Hl, Ht. split; [done |]. simpl.
  pose proof (ensure_index_output_files decode w) as H. by rewrite He in H.
Qed.

(** ** Lines and offsets *)

Lemma readlines_nonempty bs l : l ∈ readlines bs -> l <> [].
Proof.
  revert l. induction bs as [|b r IH]; intros l; simpl; [by intros ?%elem_of_nil |].
  destruct (is_lf b).
  - intros [-> | H]%elem_of_cons; [done | by apply IH].
  - destruct (readlines r) as [|l0 ls] eqn:E.
    + by intros ->%list_elem_of_singleton.
    + intros [-> | H]%elem_of_cons; [done |]. apply IH. by right.
Qed.

Lemma readline_empty bs r : readline bs = ([], r) -> bs = [] /\ r = [].
Proof.
  destruct bs as [|b bs]; simpl; [by intros [= <-] |].
  destruct (is_lf b); [done |]. by destruct (readline bs).
Qed.

(** [readlines] is [readline] repeated until the empty read. *)
Lemma readlines_readline bs :
  readlines bs =
  match readline bs with
  | ([], _) => []
  | (l, r) => l :: readlines r
  end.
Proof.
  induction bs as [|b r IH]; simpl; [done |].
  destruct (is_lf b); [done |].
  rewrite IH. destruct (readline r) as [[|c l] r'] eqn:E; [| done].
  by apply readline_empty in E as [_ ->].
Qed.

Lemma concat_readlines bs : concat (readlines bs) = bs.
Proof.
  induction bs as [|b r IH]; simpl; [done |].
  destruct (is_lf b); simpl; [by rewrite IH |].
  destruct (readlines r) as [|l ls]; simpl in *; by rewrite <- IH.
Qed.

Lemma with_offsets_ge offset lines o l :
  (o, l) ∈ with_offsets offset lines -> offset <= o.
Proof.
  revert offset. induction lines as [|x lines IH]; intros offset; simpl.
  - by intros ?%elem_of_nil.
  - intros [[= -> ->] | H]%elem_of_cons; [lia |]. apply IH in H. lia.
Qed.

(** Every listed line is the slice of the file at its offset. *)
Lemma with_offsets_slice pre lines o l :
  (o, l) ∈ with_offsets (Z.of_nat (length pre)) lines ->
  0 <= o /\ take (length l) (drop (Z.to_nat o) (pre ++ concat lines)) = l.
Proof.
  revert pre. induction lines as [|x lines IH]; intros pre; simpl.
  - by intros ?%elem_of_nil.
  - intros [[= -> ->] | H]%elem_of_cons.
    + split; [lia |]. rewrite Nat2Z.id, drop_app_length.
      by rewrite take_app_length.
    + rewrite <- Nat2Z.inj_add, <- length_app in H. apply IH in H.
      by rewrite <- (assoc_L (++)) in H.
Qed.

Lemma file_lines_slice file o l :
  (o, l) ∈ file_lines file ->
  0 <= o /\ l <> [] /\ take (length l) (drop (Z.to_nat o) file) = l.
Proof.
  intros H. unfold file_lines in H.
  assert (l ∈ readlines file) as Hl.
  { clear -H. revert H. generalize 0. induction (readlines file) as [|x ls IH];
      intros z; simpl; [by intros ?%elem_of_nil |].
    intros [[= -> ->] | H]%elem_of_cons; [left | right; eauto]. }
  apply (with_offsets_slice []) in H as [H0 H]. simpl in H.
  rewrite concat_readlines in H. eauto using readlines_nonempty.
Qed.

(** ** Index Builder: first offsets *)

Section Builder.
Variable decode : bytes -> string.

Lemma build_index_scan_lookup offset lines index date :
  build_index_scan decode offset lines index !! date =
  match index !! date with
  | Some o => Some o
  | None => first_with decode date (with_offsets offset lines)
  end.
Proof.
  revert offset index. induction lines as [|line rest IH]; intros offset index.
  { simpl. by destruct (index !! date). }
  unfold first_with. simpl.
  pose proof (eq_refl (date_key decode line)) as Hkey.
  unfold date_key at 2 in Hkey.
  destruct (String.length (decode line) <? 10)%nat eqn:Hlen.
  - rewrite IH. rewrite bool_decide_eq_false_2 by congruence. done.
  - destruct (index !! first10 (decode line)) as [o1|] eqn:Hk; rewrite IH.
    + destruct (decide (first10 (decode line) = date)) as [<- | Hne].
      * by rewrite Hk.
      * rewrite bool_decide_eq_false_2 by congruence. done.
    + destruct (decide (first10 (decode line) = date)) as [<- | Hne].
      * rewrite lookup_insert_eq, Hk. by rewrite bool_decide_eq_true_2.
      * rewrite lookup_insert_ne by done.
        rewrite bool_decide_eq_false_2 by congruence. done.
Qed.

Lemma first_with_least date offset lines o :
  first_with decode date (with_offsets offset lines) = Some o ->
  (exists l, (o, l) ∈ with_offsets offset lines /\ date_key decode l = Some date) /\
  forall o' l', (o', l') ∈ with_offsets offset lines ->
                date_key decode l' = Some date -> o <= o'.
Proof.
  unfold first_with. revert offset.
  induction lines as [|line rest IH]; intros offset; simpl; [done |].
  case_bool_decide as Hd; simpl.
  - intros [= <-]. split; [exists line; split; [left | done] |].
    intros o' l' [[= -> ->] | H]%elem_of_cons _; [lia |].
    apply with_offsets_ge in H. lia.
  - intros Hf. destruct (IH _ Hf) as [(l & Hin & Hk) Hmin].
    split; [exists l; split; [by right | done] |].
    intros o' l' [[= -> ->] | H]%elem_of_cons Hk'; [congruence | eauto].
Qed.

Lemma first_with_none date ols o l :
  first_with decode date ols = None -> (o, l) ∈ ols -> date_key decode l <> Some date.
Proof.
  unfold first_with. intros Hf Hin.
  destruct (List.find _ ols) eqn:E; [done |].
  pose proof (find_none _ _ E (o, l)) as H. simpl in H.
  intros Hk. rewrite bool_decide_eq_true_2 in H by done.
  apply list_elem_of_In in Hin. by specialize (H Hin).
Qed.

(** Decoding yields at most one character per byte. *)
Hypothesis decode_length :
  forall line, (String.length (decode line) <= length line)%nat.

(** C4, amended.  The date key of a line is the first 10 characters of its
    decoded text, bytes that do not decode being dropped; a line whose
    decoded text has fewer than 10 characters has none.  After
    [build_index], the entry list is the serialization of a dictionary that
    holds, for every date key present in the file, the smallest byte offset
    of a line with that key: the first such line is recorded and later ones
    never replace it.  The dictionary has no entry but those of the keys
    met, and a line shorter than 10 bytes has no key and adds nothing. *)
Theorem build_index_first_offset (w : world) :
  let index := built_index decode (log_file w) in
  index_file (build_index decode w) = Some (entry_lines index) /\
  (forall date offset, date_at decode (log_file w) date offset ->
     exists first, index !! date = Some first /\
       date_at decode (log_file w) date first /\ first <= offset) /\
  (forall date first, index !! date = Some first ->
     date_at decode (log_file w) date first /\
     forall offset, date_at decode (log_file w) date offset -> first <= offset) /\
  (forall line, (length line < 10)%nat -> date_key decode line = None).
Proof.
  intros index. split; [by destruct w |].
  assert (forall date, index !! date = first_with decode date (file_lines (log_file w))) as Hix.
  { intros date. unfold index, built_index. by rewrite build_index_scan_lookup. }
  split; [| split].
  - intros date offset (line & Hin & Hk). rewrite Hix.
    destruct (first_with decode date _) as [first|] eqn:Hf.
    + apply first_with_least in Hf as [Hex Hmin].
      exists first. split; [done |]. split; [done | eauto].
    + by destruct (first_with_none _ _ _ _ Hf Hin).
  - intros date first Hi. rewrite Hix in Hi.
    apply first_with_least in Hi as [Hex Hmin]. split; [done |].
    intros offset (line & Hin & Hk). eauto.
  - intros line Hlt. unfold date_key.
    pose proof (decode_length line) as Hlen.
    assert (String.length (decode line) < 10)%nat as Hs by lia.
    by apply Nat.ltb_lt in Hs as ->.
Qed.

End Builder.

(** On 7-bit text the decoded characters are the bytes: a line has a date
    key exactly when it has 10 bytes or more, and the key is its first 10
    bytes. *)
Lemma string_of_list_byte_length l :
  String.length (string_of_list_byte l) = length l.
Proof. induction l as [|b l IH]; simpl; [done | by rewrite <- IH]. Qed.

Lemma substring_string_of_list_byte n l :
  String.substring 0 n (string_of_list_byte l) = string_of_list_byte (take n l).
Proof.
  revert n. induction l as [|b l IH]; intros [|n]; try done.
  change (String (ascii_of_byte b) (String.substring 0 n (string_of_list_byte l))
          = String (ascii_of_byte b) (string_of_list_byte (take n l))).
  by rewrite IH.
Qed.

Lemma date_key_ascii line date :
  date_key decode_ascii line = Some date <->
  (10 <= length line)%nat /\ date = string_of_list_byte (take 10 line).
Proof.
  unfold date_key, decode_ascii, first10.
  rewrite string_of_list_byte_length, substring_string_of_list_byte.
  destruct (length line <? 10)%nat eqn:E.
  - apply Nat.ltb_lt in E. split; [done | lia].
  - apply Nat.ltb_ge in E. split; [by intros [= <-] | by intros [_ ->]].
Qed.

Lemma decode_ascii_length line :
  (String.length (decode_ascii line) <= length line)%nat.
Proof. unfold decode_ascii. by rewrite string_of_list_byte_length. Qed.

Lemma build_index_first_offset_witness :
  index_file (build_index decode_ascii (fresh scenario_log))
    = Some (entry_lines (built_index decode_ascii scenario_log)) /\
  exists first,
    built_index decode_ascii scenario_log !! "2024-01-02" = Some first /\
    first <= 26.
Proof.
  destruct (build_index_first_offset decode_ascii decode_ascii_length
              (fresh scenario_log)) as (Hfile & Hfirst & _).
  split; [exact Hfile |].
  destruct (Hfirst "2024-01-02" 26) as (first & Hi & _ & Hle).
  - exists (list_byte_of_string "2024-01-02 c" ++ [x0a]). split.
    + vm_compute. do 2 right. left.
    + reflexivity.
  - exists first. split; [exact Hi | exact Hle].
Defined.

(** With [errors="ignore"] a byte that does not decode is dropped before
    the key is taken.  The first line of this file, at byte 0, has the key
    2024-01-01 and the index stores 0 for that date, though the first 10
    bytes of that line are not the date: the one line whose first 10 bytes
    are the date begins at byte 14. *)
Lemma build_index_dropped_byte :
  let date := list_byte_of_string "2024-01-01" in
  exists l0 l1,
    file_lines invalid_byte_log = [(0, l0); (14, l1)] /\
    take 10 l0 <> date /\ take 10 l1 = date /\
    date_key decode_ignore l0 = Some "2024-01-01" /\
    built_index decode_ignore invalid_byte_log !! "2024-01-01" = Some 0.
Proof.
  eexists _, _. split; [reflexivity |].
  split; [intros H; discriminate H |].
  split; [reflexivity |]. split; reflexivity.
Qed.

(** ** Parallel Extractor on concrete files *)

(** C1. On the scenario file, whose range for 2024-01-01 is [[0, 26)], the
    four chunk outputs are [a; b], [b], [b] and []: the line [b] is delivered
    three times, where the range holds each of the two lines once. *)
Theorem extract_logs_scenario_duplicates :
  let a := "2024-01-01 a" +:+ nl in
  let b := "2024-01-01 b" +:+ nl in
  get_date_range "2024-01-01" (built_index decode_ascii scenario_log) scenario_log
    = Some (0, 26) /\
  tasks_for num_workers 0 26 = [(0, 6); (6, 12); (12, 18); (18, 26)] /\
  pool_map decode_ascii scenario_log "2024-01-01" (tasks_for num_workers 0 26)
    = Ok [[a; b]; [b]; [b]; []] /\
  lines_of_date decode_ascii scenario_log 0 26 "2024-01-01" = [a; b] /\
  (let '(w, e) := extract_logs decode_ascii "2024-01-01" (fresh scenario_log) in
   e = None /\
   output_files w !! "2024-01-01" = Some (a +:+ b +:+ b +:+ b)).
Proof. vm_compute. repeat split; reflexivity. Qed.

(** C2. On a file whose target date begins at byte 13, the first chunk is
    [[13, 19)]; its scan discards the line that begins at byte 13, a whole
    line of the target date, and the output never holds that line. *)
Theorem first_chunk_discards_first_line :
  let b := "2024-01-02 b" +:+ nl in
  let c := "2024-01-02 c" +:+ nl in
  get_date_range "2024-01-02" (built_index decode_ascii second_date_log)
    second_date_log = Some (13, 39) /\
  head (tasks_for num_workers 13 39) = Some (13, 19) /\
  lines_of_date decode_ascii second_date_log 13 39 "2024-01-02" = [b; c] /\
  process_chunk decode_ascii second_date_log 13 19 "2024-01-02" = Ok [c] /\
  (let '(w, e) := extract_logs decode_ascii "2024-01-02" (fresh second_date_log) in
   e = None /\
   output_files w !! "2024-01-02" = Some (c +:+ c +:+ c)).
Proof. vm_compute. repeat split; reflexivity. Qed.

(** ** The no-op update and the missing date on the scenario file *)

Lemma update_index_noop_witness :
  let w := build_index decode_ascii (fresh scenario_log) in
  getsize (log_file w) <= read_last_processed_offset (index_info_file w) /\
  index_file (fst (update_index decode_ascii w)) = index_file w /\
  update_index decode_ascii w = (print NoNewLogs w, None).
Proof.
  intros w.
  assert (getsize (log_file w) <= read_last_processed_offset (index_info_file w))
    as Hle by (by vm_compute).
  destruct (update_index_noop decode_ascii w Hle) as [(_ & Hi & _) Hret].
  split; [exact Hle |]. split; [exact Hi |].
  apply (Hret (built_index decode_ascii scenario_log)).
  vm_compute. reflexivity.
Defined.

Lemma extract_logs_not_found_witness :
  let w1 := build_index decode_ascii (print IndexFileNotFound (fresh scenario_log)) in
  extract_logs decode_ascii "2024-03-03" (fresh scenario_log)
    = (print (TargetNotFound "2024-03-03") w1, None) /\
  output_files (fst (extract_logs decode_ascii "2024-03-03" (fresh scenario_log)))
    = ∅.
Proof.
  intros w1.
  apply (extract_logs_not_found decode_ascii "2024-03-03" (fresh scenario_log) w1
           (built_index decode_ascii scenario_log)).
  - reflexivity.
  - vm_compute. reflexivity.
  - vm_compute. reflexivity.
Defined.

(** * Update after build *)

(** ** Texts *)

Lemma append_cons x (a b : string) : String x a +:+ b = String x (a +:+ b).
Proof. reflexivity. Qed.

Lemma append_assoc (a b c : string) : (a +:+ b) +:+ c = a +:+ (b +:+ c).
Proof. induction a as [|x a IH]; [done |]. by rewrite !append_cons, IH. Qed.

Lemma append_nil_r (a : string) : a +:+ "" = a.
Proof. induction a as [|x a IH]; [done |]. by rewrite append_cons, IH. Qed.

Lemma digit_not_space c : is_digit c = true -> py_isspace c = false.
Proof. destruct c as [[] [] [] [] [] [] [] []]; vm_compute; congruence. Qed.

Lemma all_digits_no_space s : all_digits s = true -> no_space s = true.
Proof.
  induction s as [|c r IH]; simpl; [done |].
  intros [Hc Hr]%andb_prop. by rewrite (digit_not_space _ Hc), IH.
Qed.

Lemma py_lstrip_no_space s : no_space s = true -> py_lstrip s = s.
Proof. destruct s as [|c r]; simpl; [done |]. by destruct (py_isspace c). Qed.

Lemma py_rstrip_no_space s : no_space s = true -> py_rstrip s = s.
Proof.
  induction s as [|c r IH]; simpl; [done |].
  destruct (py_isspace c); [done |]. simpl. intros Hr. rewrite (IH Hr).
  by destruct r.
Qed.

Lemma py_strip_no_space s : no_space s = true -> py_strip s = s.
Proof.
  intros H. unfold py_strip. by rewrite py_lstrip_no_space, py_rstrip_no_space.
Qed.

(** ** Decimal numerals *)

Lemma string_of_uint_digits u : all_digits (NilEmpty.string_of_uint u) = true.
Proof. induction u; simpl; done. Qed.

Lemma numeral_digits_all prev s :
  all_digits s = true -> s <> "" \/ prev = true ->
  numeral_digits prev s = Some s.
Proof.
  revert prev. induction s as [|c r IH]; intros prev; simpl.
  - intros _ [H | ->]; done.
  - intros [Hc Hr]%andb_prop _. rewrite Hc, (IH true); auto.
Qed.

Lemma unsigned_int_uint u :
  u <> Decimal.Nil ->
  unsigned_int (NilEmpty.string_of_uint u) = Some (Z.of_uint u).
Proof.
  intros Hu. unfold unsigned_int.
  rewrite numeral_digits_all.
  - simpl. by rewrite NilEmpty.usu.
  - apply string_of_uint_digits.
  - left. by destruct u.
Qed.

Lemma py_int_digits s :
  all_digits s = true -> py_int s = unsigned_int s.
Proof.
  intros Hs. unfold py_int.
  rewrite py_strip_no_space by by apply all_digits_no_space.
  destruct s as [|c r]; [done |]. simpl in Hs. apply andb_prop in Hs as [Hc _].
  destruct c as [[] [] [] [] [] [] [] []]; try done.
Qed.

Lemma py_str_pos p :
  py_str (Z.pos p) = NilEmpty.string_of_uint (Pos.to_uint p).
Proof.
  unfold py_str. simpl. pose proof (Unsigned.to_uint_nonnil p) as H.
  by destruct (Pos.to_uint p).
Qed.

Lemma of_uint_to_uint p : Z.of_uint (Pos.to_uint p) = Z.pos p.
Proof. unfold Z.of_uint. by rewrite Unsigned.of_to. Qed.

Lemma py_str_no_space n : no_space (py_str n) = true.
Proof.
  destruct n as [|p|p].
  - done.
  - rewrite py_str_pos. apply all_digits_no_space, string_of_uint_digits.
  - unfold py_str. simpl. pose proof (Unsigned.to_uint_nonnil p) as H.
    replace (NilZero.string_of_uint (Pos.to_uint p))
      with (NilEmpty.string_of_uint (Pos.to_uint p)) by by destruct (Pos.to_uint p).
    apply all_digits_no_space, string_of_uint_digits.
Qed.

Lemma py_str_nonempty n : py_str n <> "".
Proof.
  destruct n as [|p|p]; [done | | done].
  rewrite py_str_pos. pose proof (Unsigned.to_uint_nonnil p) as H.
  by destruct (Pos.to_uint p).
Qed.

(** [int(str(n)) == n] *)
Lemma py_int_py_str n : py_int (py_str n) = Some n.
Proof.
  destruct n as [|p|p].
  - done.
  - rewrite py_str_pos, py_int_digits by apply string_of_uint_digits.
    rewrite unsigned_int_uint by apply Unsigned.to_uint_nonnil.
    by rewrite of_uint_to_uint.
  - unfold py_int. rewrite py_strip_no_space by apply py_str_no_space.
    unfold py_str. simpl. pose proof (Unsigned.to_uint_nonnil p) as H.
    replace (NilZero.string_of_uint (Pos.to_uint p))
      with (NilEmpty.string_of_uint (Pos.to_uint p)) by by destruct (Pos.to_uint p).
    rewrite unsigned_int_uint by done. by rewrite of_uint_to_uint.
Qed.

Lemma read_watermark_py_str n :
  read_last_processed_offset (Some (py_str n)) = n.
Proof.
  unfold read_last_processed_offset.
  rewrite py_strip_no_space by apply py_str_no_space.
  by rewrite py_int_py_str.
Qed.

(** ** Entry lines read back *)

Lemma space_LF : py_isspace LF = true.
Proof. reflexivity. Qed.

Lemma not_space_not_newline c :
  py_isspace c = false -> Ascii.eqb c LF = false /\ Ascii.eqb c CR = false.
Proof. destruct c as [[] [] [] [] [] [] [] []]; vm_compute; auto; congruence. Qed.

Lemma py_split_lstrip s : py_split (py_lstrip s) = py_split s.
Proof.
  induction s as [|c r IH]; [done |].
  simpl. destruct (py_isspace c) eqn:Hc; [done |]. simpl. by rewrite Hc.
Qed.

Lemma py_rstrip_head c r :
  py_rstrip (String c r) = "" \/ exists r', py_rstrip (String c r) = String c r'.
Proof.
  simpl. destruct (py_rstrip r); [destruct (py_isspace c) |]; eauto.
Qed.

Lemma py_split_rstrip s : py_split (py_rstrip s) = py_split s.
Proof.
  induction s as [|c r IH]; [done |].
  simpl. destruct (py_rstrip r) as [|c2 r2] eqn:Hr.
  - simpl in IH. destruct (py_isspace c) eqn:Hc; [done |].
    simpl. rewrite Hc. destruct r as [|c' r']; [done |].
    rewrite <- IH. by destruct (py_isspace c').
  - destruct r as [|c' r']; [done |].
    destruct (py_rstrip_head c' r') as [H | [r'' H]]; rewrite H in Hr; [done |].
    injection Hr as <- <-. rewrite <- H in IH |- *.
    destruct (py_rstrip (String c' r')) as [|c3 r3] eqn:E; [done |].
    injection H as ->.
    change (py_split (String c (String c' r3))) with
      (if py_isspace c then py_split (String c' r3)
       else if py_isspace c' then String c "" :: py_split (String c' r3)
       else match py_split (String c' r3) with
            | w :: ws => String c w :: ws
            | [] => [String c ""]
            end).
    by rewrite IH.
Qed.

Lemma py_split_strip s : py_split (py_strip s) = py_split s.
Proof. unfold py_strip. by rewrite py_split_rstrip, py_split_lstrip. Qed.

(** A word followed by whitespace is the first field. *)
Lemma py_split_word w c rest :
  no_space w = true -> w <> "" -> py_isspace c = true ->
  py_split (w +:+ String c rest) = w :: py_split (String c rest).
Proof.
  intros Hw Hne Hc. induction w as [|x w IH]; [done |].
  simpl in Hw. apply andb_prop in Hw as [Hx Hw]. apply negb_true_iff in Hx.
  rewrite append_cons. destruct w as [|y w].
  - change ("" +:+ String c rest) with (String c rest).
    cbn [py_split]. by rewrite Hx, Hc.
  - rewrite append_cons in *. specialize (IH Hw ltac:(done)).
    simpl in Hw. apply andb_prop in Hw as [Hy _]. apply negb_true_iff in Hy.
    remember (String y (w +:+ String c rest)) as t eqn:Ht.
    cbn [py_split]. rewrite Hx. subst t. rewrite Hy.
    fold (py_split (String y (w +:+ String c rest))). by rewrite IH.
Qed.

Lemma py_split_entry_line date n :
  no_space date = true -> date <> "" ->
  py_split (py_strip (entry_line date n)) = [date; py_str n].
Proof.
  intros Hd Hne. rewrite py_split_strip. unfold entry_line.
  change (" " +:+ py_str n +:+ nl) with (String " " (py_str n +:+ nl)).
  rewrite py_split_word by done.
  change (py_split (String " " (py_str n +:+ nl)))
    with (py_split (py_str n +:+ nl)).
  unfold nl. rewrite py_split_word;
    auto using py_str_no_space, py_str_nonempty.
Qed.


Lemma no_space_no_newline s : no_space s = true -> no_newline s = true.
Proof.
  induction s as [|c r IH]; simpl; [done |].
  intros [Hc Hr]%andb_prop. apply negb_true_iff in Hc.
  destruct (not_space_not_newline _ Hc) as [-> ->]. by rewrite IH.
Qed.

Lemma no_newline_app a b :
  no_newline a = true -> no_newline b = true -> no_newline (a +:+ b) = true.
Proof.
  intros Ha Hb. induction a as [|c a IH]; [done |].
  rewrite append_cons. simpl in *. apply andb_prop in Ha as [-> Ha]. auto.
Qed.

(** A text-mode read splits off a first line that ends with its LF. *)
Lemma text_lines_line s t :
  no_newline s = true -> text_lines (s +:+ nl +:+ t) = (s +:+ nl) :: text_lines t.
Proof.
  intros Hs. induction s as [|c s IH]; [done |].
  simpl in Hs. apply andb_prop in Hs as [[Hc1 Hc2]%andb_prop Hs].
  apply negb_true_iff in Hc1, Hc2.
  rewrite !append_cons. cbn [text_lines]. rewrite Hc1, Hc2.
  by rewrite (IH Hs).
Qed.

Lemma text_lines_entry_line date n t :
  no_space date = true ->
  text_lines (entry_line date n +:+ t) = entry_line date n :: text_lines t.
Proof.
  intros Hd. unfold entry_line.
  replace ((date +:+ " " +:+ py_str n +:+ nl) +:+ t)
    with ((date +:+ " " +:+ py_str n) +:+ nl +:+ t)
    by by rewrite !append_assoc.
  rewrite text_lines_line.
  - by rewrite !append_assoc.
  - apply no_newline_app; [by apply no_space_no_newline |].
    apply (no_newline_app " "); [done |].
    apply no_space_no_newline, py_str_no_space.
Qed.

(** ** The entry list loads back as the dictionary it was written from *)



Lemma load_entries_text index dates acc :
  Forall plain_key dates ->
  load_index_lines (text_lines (entries_text index dates)) acc =
  Ok (foldl (fun acc date => <[date := index !!! date]> acc) acc dates).
Proof.
  intros Hd. revert acc. induction Hd as [|date dates [Hs Hne] Hd IH]; intros acc.
  - done.
  - cbn [entries_text foldr foldl]. rewrite text_lines_entry_line by done.
    cbn [load_index_lines]. rewrite py_split_entry_line by done.
    rewrite py_int_py_str. apply IH.
Qed.

Lemma lookup_foldl_insert (index : gmap string Z) (dates : list string)
    (acc : gmap string Z) (k : string) :
  foldl (fun acc date => <[date := index !!! date]> acc) acc dates !! k =
  if decide (k ∈ dates) then Some (index !!! k) else acc !! k.
Proof.
  revert acc. induction dates as [|d dates IH]; intros acc; cbn [foldl].
  - destruct (decide (k ∈ [])) as [H | H]; [by apply elem_of_nil in H | done].
  - rewrite IH.
    destruct (decide (k ∈ dates)) as [Hin | Hnin];
      destruct (decide (k ∈ d :: dates)) as [Hin' | Hnin']; try done.
    + destruct Hnin'. by right.
    + apply elem_of_cons in Hin' as [-> | ?]; [| done].
      by rewrite lookup_insert_eq.
    + rewrite lookup_insert_ne; [done |]. intros ->. apply Hnin'. left.
Qed.

Lemma load_index_entry_lines (index : gmap string Z) :
  (forall date, date ∈ dom index -> plain_key date) ->
  load_index (Some (entry_lines index)) = Ok index.
Proof.
  intros Hk. unfold load_index.
  change (entry_lines index) with (entries_text index (sorted_keys index)).
  rewrite load_entries_text.
  - f_equal. apply map_eq. intros k. rewrite lookup_foldl_insert, lookup_empty.
    destruct (decide (k ∈ sorted_keys index)) as [Hin | Hnin].
    + apply elem_of_sorted_keys, elem_of_dom in Hin as [v Hv].
      by rewrite lookup_total_alt, Hv.
    + symmetry. apply not_elem_of_dom. by rewrite <- elem_of_sorted_keys.
  - apply Forall_forall. intros d Hd. by apply Hk, elem_of_sorted_keys.
Qed.

(** ** Reads across an append *)

Lemma is_lf_false b : is_lf b = false -> b <> x0a.
Proof. intros H ->. by vm_compute in H. Qed.

Lemma readlines_nil bs : readlines bs = [] -> bs = [].
Proof. intros H. by rewrite <- (concat_readlines bs), H. Qed.

Lemma readlines_app file appended :
  complete_records file ->
  readlines (file ++ appended) = readlines file ++ readlines appended.
Proof.
  induction file as [|b r IH]; [done |].
  intros [? | Hlast]; [done |].
  destruct (decide (r = [])) as [-> | Hr].
  - injection Hlast as ->. reflexivity.
  - assert (readlines (r ++ appended) = readlines r ++ readlines appended) as IH'.
    { apply IH. right. by destruct r. }
    change ((b :: r) ++ appended) with (b :: (r ++ appended)).
    cbn [readlines]. rewrite IH'.
    destruct (is_lf b); [done |].
    destruct (readlines r) as [|l ls] eqn:E; [| done].
    by apply readlines_nil in E.
Qed.

Lemma omap_cons {A B} (f : A -> option B) x l :
  omap f (x :: l) = match f x with Some y => y :: omap f l | None => omap f l end.
Proof. reflexivity. Qed.

Lemma with_offsets_elem offset lines o l :
  (o, l) ∈ with_offsets offset lines -> l ∈ lines.
Proof.
  revert offset. induction lines as [|x lines IH]; intros offset; simpl.
  - by intros ?%elem_of_nil.
  - intros [[= -> ->] | H]%elem_of_cons; [left | right; eauto].
Qed.

Section Updater.
Variable decode : bytes -> string.

Lemma date_key_nonempty line date : date_key decode line = Some date -> date <> "".
Proof.
  unfold date_key, first10.
  destruct (decode line) as [|c r]; simpl; [done |].
  destruct (_ <? _)%nat; [done |]. by intros [= <-].
Qed.

Lemma date_key_cases line :
  ((String.length (decode line) <? 10)%nat = true /\ date_key decode line = None) \/
  ((String.length (decode line) <? 10)%nat = false /\
   date_key decode line = Some (first10 (decode line))).
Proof. unfold date_key. destruct (_ <? _)%nat; auto. Qed.

Lemma build_index_scan_app offset l1 l2 index :
  build_index_scan decode offset (l1 ++ l2) index =
  build_index_scan decode (offset + Z.of_nat (length (concat l1))) l2
    (build_index_scan decode offset l1 index).
Proof.
  revert offset index. induction l1 as [|line l1 IH]; intros offset index.
  - simpl. by rewrite Z.add_0_r.
  - cbn [app build_index_scan concat]. rewrite length_app, Nat2Z.inj_add, Z.add_assoc.
    destruct (_ <? _)%nat; [apply IH |].
    destruct (index !! _); apply IH.
Qed.

(** The full scan finds what the update scan finds, on top of the index the
    update starts from. *)
Lemma build_index_scan_update offset lines index new_entries :
  index ##ₘ new_entries ->
  build_index_scan decode offset lines (index ∪ new_entries) =
  index ∪ update_index_scan decode offset lines index new_entries.
Proof.
  revert offset new_entries.
  induction lines as [|line lines IH]; intros offset new_entries Hdisj; [done |].
  cbn [build_index_scan update_index_scan].
  destruct (_ <? _)%nat; [by apply IH |].
  destruct (index !! first10 (decode line)) as [o|] eqn:Hi.
  - rewrite (lookup_union_Some_l _ _ _ _ Hi). by apply IH.
  - rewrite lookup_union_r by done.
    destruct (new_entries !! first10 (decode line)) as [o|] eqn:Hn.
    + by apply IH.
    + rewrite insert_union_r by done. apply IH.
      by apply map_disjoint_insert_r_2.
Qed.

Lemma update_index_scan_dom offset lines index new_entries date :
  date ∈ dom (update_index_scan decode offset lines index new_entries) ->
  date ∈ dom new_entries \/
  (index !! date = None /\ date ∈ omap (date_key decode) lines).
Proof.
  revert offset new_entries.
  induction lines as [|line lines IH]; intros offset new_entries; [by left |].
  cbn [update_index_scan]. rewrite omap_cons.
  destruct (date_key_cases line) as [[Hlen Hk] | [Hlen Hk]]; rewrite Hlen, Hk.
  { intros [? | [? ?]]%IH; auto. }
  assert (forall ne, date ∈ dom (update_index_scan decode
                       (offset + Z.of_nat (length line)) lines index ne) ->
            date ∈ dom ne \/ (index !! date = None /\
              date ∈ first10 (decode line) :: omap (date_key decode) lines)) as IH'.
  { intros ne [? | [? ?]]%IH; [by left | right]. split; [done | by right]. }
  destruct (index !! first10 (decode line)) as [o|] eqn:Hi; [apply IH' |].
  destruct (new_entries !! first10 (decode line)) as [o|] eqn:Hn; [apply IH' |].
  intros [Hd | ?]%IH'; [| by right].
  apply dom_insert in Hd. apply elem_of_union in Hd as [->%elem_of_singleton | ?].
  - right. split; [done | left].
  - by left.
Qed.

Lemma update_index_scan_disjoint offset lines index :
  index ##ₘ update_index_scan decode offset lines index ∅.
Proof.
  apply map_disjoint_alt. intros date.
  destruct (update_index_scan decode offset lines index ∅ !! date) eqn:E; [| by right].
  left. assert (date ∈ dom (update_index_scan decode offset lines index ∅)) as Hd
    by (apply elem_of_dom; eauto).
  apply update_index_scan_dom in Hd as [Hd | [? _]]; [| done].
  by rewrite dom_empty in Hd.
Qed.

Lemma built_index_update file :
  built_index decode file =
  update_index_scan decode 0 (readlines file) ∅ ∅.
Proof.
  unfold built_index.
  rewrite <- (left_id ∅ (∪) (update_index_scan _ _ _ _ _)).
  rewrite <- build_index_scan_update by apply map_disjoint_empty_l.
  by rewrite (left_id ∅ (∪)).
Qed.

Lemma built_index_dom file date :
  date ∈ dom (built_index decode file) -> date ∈ dates_of decode file.
Proof.
  rewrite built_index_update.
  intros [Hd | [_ ?]]%update_index_scan_dom; [| done].
  by rewrite dom_empty in Hd.
Qed.

(** The full scan of the grown file is the scan of the old file followed by
    the update scan of the appended bytes. *)
Lemma built_index_append file appended :
  complete_records file ->
  built_index decode (file ++ appended) =
  built_index decode file ∪
  update_index_scan decode (getsize file) (readlines appended)
    (built_index decode file) ∅.
Proof.
  intros Hc. unfold built_index at 1.
  rewrite readlines_app, build_index_scan_app, concat_readlines by done.
  fold (built_index decode file). rewrite Z.add_0_l.
  rewrite <- build_index_scan_update by apply map_disjoint_empty_r.
  by rewrite (right_id ∅ (∪)).
Qed.

End Updater.

(** ** Sorted keys of a union *)

Lemma sorted_keys_union (m1 m2 : gmap string Z) :
  m1 ##ₘ m2 ->
  (forall k1 k2, k1 ∈ dom m1 -> k2 ∈ dom m2 -> String.le k1 k2) ->
  sorted_keys (m1 ∪ m2) = sorted_keys m1 ++ sorted_keys m2.
Proof.
  intros Hdisj Hle. apply (StronglySorted_unique String.le).
  - apply sorted_keys_sorted.
  - apply StronglySorted_app_2; [| apply sorted_keys_sorted ..].
    intros k1 k2 ?%elem_of_sorted_keys ?%elem_of_sorted_keys. by apply Hle.
  - unfold sorted_keys. rewrite !merge_sort_Permutation, dom_union_L.
    apply elements_disj_union. by apply map_disjoint_dom.
Qed.

Lemma entries_text_app index l1 l2 :
  entries_text index (l1 ++ l2) = entries_text index l1 +:+ entries_text index l2.
Proof.
  induction l1 as [|d l1 IH]; [done |].
  cbn [app entries_text foldr]. fold (entries_text index (l1 ++ l2)).
  fold (entries_text index l1). by rewrite IH, append_assoc.
Qed.

Lemma entries_text_ext (m1 m2 : gmap string Z) dates :
  (forall d, d ∈ dates -> m1 !!! d = m2 !!! d) ->
  entries_text m1 dates = entries_text m2 dates.
Proof.
  induction dates as [|d dates IH]; intros H; [done |].
  cbn [entries_text foldr]. fold (entries_text m1 dates) (entries_text m2 dates).
  rewrite H by left. rewrite IH; [done |]. intros ??. apply H. by right.
Qed.

Lemma entry_lines_union (m1 m2 : gmap string Z) :
  m1 ##ₘ m2 ->
  (forall k1 k2, k1 ∈ dom m1 -> k2 ∈ dom m2 -> String.le k1 k2) ->
  entry_lines (m1 ∪ m2) = entry_lines m1 +:+ entry_lines m2.
Proof.
  intros Hdisj Hle.
  change (entries_text (m1 ∪ m2) (sorted_keys (m1 ∪ m2)) =
          entries_text m1 (sorted_keys m1) +:+ entries_text m2 (sorted_keys m2)).
  rewrite sorted_keys_union, entries_text_app by done. f_equal.
  - apply entries_text_ext. intros d Hd%elem_of_sorted_keys.
    apply elem_of_dom in Hd as [v Hv].
    by rewrite !lookup_total_alt, (lookup_union_Some_l _ _ _ _ Hv), Hv.
  - apply entries_text_ext. intros d Hd%elem_of_sorted_keys.
    apply elem_of_dom in Hd as [v Hv].
    assert (m1 !! d = None) as Hn by (by eapply map_disjoint_Some_r).
    by rewrite !lookup_total_alt, lookup_union_r.
Qed.

(** ** Update after build *)

Lemma seek_fits (file : bytes) (pos : Z) :
  0 <= pos -> fits_off_t file pos = true ->
  seek file pos = Ok (drop (Z.to_nat pos) file).
Proof.
  intros Hpos Hfit. unfold seek. rewrite Hfit. simpl.
  by destruct (Z.ltb_spec pos 0); [lia |].
Qed.

Lemma fits_off_t_inside (file : bytes) (pos : Z) :
  0 <= pos <= getsize file -> fits_off_t file pos = true.
Proof.
  intros Hpos. unfold fits_off_t, off_t_min.
  destruct (Z.leb_spec (-9223372036854775808) pos); [| lia].
  destruct (Z.leb_spec pos (getsize file)); [| lia].
  by rewrite orb_true_r.
Qed.


Lemma seek_end (file appended : bytes) :
  seek (file ++ appended) (getsize file) = Ok appended.
Proof.
  rewrite seek_fits.
  - unfold getsize. by rewrite Nat2Z.id, drop_app_length.
  - unfold getsize. lia.
  - apply fits_off_t_inside. unfold getsize. rewrite length_app. lia.
Qed.

(** C7. Let the initial log file be made of whole records whose date keys
    hold no whitespace, and let bytes be appended so that the date keys of the
    grown file are in non-decreasing order.  Then [update_index], run on the
    artifacts that [build_index] wrote for the initial file, returns without
    raising and leaves the entry list and the watermark exactly as a full
    [build_index] of the grown file writes them.  The update keeps the text
    of the old entry list as it is and appends to it the entries of dates
    that the old index did not hold. *)
Theorem update_after_build (decode : bytes -> string) (w : world)
    (appended : bytes) :
  complete_records (log_file w) ->
  Forall (fun date => no_space date = true) (dates_of decode (log_file w)) ->
  Sorted String.le (dates_of decode (log_file w ++ appended)) ->
  let built := build_index decode w in
  let full := build_index decode (append_log appended w) in
  exists updated new_entries,
    update_index decode (append_log appended built) = (updated, None) /\
    index_file updated = index_file full /\
    index_info_file updated = index_info_file full /\
    index_file updated =
      Some (default "" (index_file built) +:+ entry_lines new_entries) /\
    (forall date, date ∈ dom new_entries ->
       date ∉ dom (built_index decode (log_file w))).
Proof.
  intros Hc Hplain Hsorted built full.
  set (file := log_file w) in *.
  set (m0 := built_index decode file).
  set (new := update_index_scan decode (getsize file) (readlines appended) m0 ∅).
  assert (m0 ##ₘ new) as Hdisj by apply update_index_scan_disjoint.
  assert (forall k1 k2, k1 ∈ dom m0 -> k2 ∈ dom new -> String.le k1 k2) as Hle.
  { intros k1 k2 Hk1 Hk2. apply built_index_dom in Hk1.
    apply update_index_scan_dom in Hk2 as [Hk2 | [_ Hk2]];
      [by rewrite dom_empty in Hk2 |].
    apply Sorted_StronglySorted in Hsorted; [| apply _].
    unfold dates_of in Hsorted. rewrite readlines_app, omap_app in Hsorted by done.
    by eapply StronglySorted_app_1_elem_of. }
  assert (built_index decode (file ++ appended) = m0 ∪ new) as Hfull
    by by apply built_index_append.
  assert (load_index (Some (entry_lines m0)) = Ok m0) as Hload.
  { apply load_index_entry_lines. intros date Hd%built_index_dom. split.
    - rewrite Forall_forall in Hplain. by apply Hplain.
    - apply list_elem_of_omap in Hd as (line & _ & Hk).
      by eapply date_key_nonempty. }
  assert (forall date, date ∈ dom new -> date ∉ dom m0) as Hnew.
  { intros date Hd Hd0. apply elem_of_dom in Hd as [v Hv].
    apply elem_of_dom in Hd0 as [v0 Hv0].
    by rewrite (map_disjoint_Some_l _ _ _ _ Hdisj Hv0) in Hv. }
  unfold update_index. cbn [append_log built build_index index_file
    index_info_file log_file set_index set_index_info print].
  fold file. fold m0. rewrite Hload, read_watermark_py_str.
  destruct (getsize (file ++ appended) <=? getsize file) eqn:Hsize.
  - (* nothing was appended *)
    apply Z.leb_le in Hsize. unfold getsize in Hsize. rewrite length_app in Hsize.
    assert (appended = []) as -> by (destruct appended; [done | simpl in Hsize; lia]).
    eexists _, ∅. split; [done |].
    cbn [full build_index append_log index_file index_info_file log_file
         set_index set_index_info print]. fold file.
    rewrite app_nil_r. fold m0.
    split; [done |]. split; [done |]. split; [| set_solver].
    cbn. by rewrite append_nil_r.
  - rewrite seek_end. fold new.
    cbn [full build_index append_log index_file index_info_file log_file
         set_index set_index_info print]. fold file. rewrite Hfull.
    destruct (decide (new = ∅)) as [Hemp | Hne].
    + eexists _, ∅. split; [done |].
      cbn [index_file index_info_file log_file set_index set_index_info print].
      rewrite Hemp, (right_id ∅ (∪)).
      split; [done |]. split; [done |]. split; [| set_solver].
      cbn. by rewrite append_nil_r.
    + eexists _, new. split; [done |].
      cbn [index_file index_info_file log_file set_index set_index_info print
           append_text default].
      rewrite entry_lines_union by done. done.
Qed.

Lemma update_after_build_witness :
  let w := fresh scenario_log in
  exists updated,
    update_index decode_ascii
      (append_log appended_records (build_index decode_ascii w)) = (updated, None) /\
    index_file updated =
      index_file (build_index decode_ascii (append_log appended_records w)) /\
    index_info_file updated = Some "65".
Proof.
  intros w.
  destruct (update_after_build decode_ascii w appended_records)
    as (updated & new_entries & Hrun & Hidx & Hinfo & _).
  - right. reflexivity.
  - vm_compute. repeat constructor.
  - vm_compute. repeat constructor.
  - exists updated. split; [exact Hrun |]. split; [exact Hidx |].
    rewrite Hinfo. reflexivity.
Defined.

(** ** Where the update and the full build part ways *)

(** When the initial file ends inside a record, the update reads the rest of
    that record as a line of its own.  The date keys of the grown file are in
    order, yet the update adds an entry for ["id=1234567"] at byte 32 that a
    full build of the grown file does not have. *)
Lemma update_after_build_unfinished_record :
  let built := build_index decode_ascii (fresh unfinished_log) in
  let updated := fst (update_index decode_ascii (append_log finishing_bytes built)) in
  let full := build_index decode_ascii (append_log finishing_bytes (fresh unfinished_log)) in
  dates_of decode_ascii (unfinished_log ++ finishing_bytes)
    = ["2024-01-01"; "2024-01-02"] /\
  Sorted String.le (dates_of decode_ascii (unfinished_log ++ finishing_bytes)) /\
  snd (update_index decode_ascii (append_log finishing_bytes built)) = None /\
  index_file full
    = Some ("2024-01-01 0" +:+ nl +:+ "2024-01-02 13" +:+ nl) /\
  index_file updated
    = Some ("2024-01-01 0" +:+ nl +:+ "2024-01-02 13" +:+ nl +:+
            "id=1234567 32" +:+ nl) /\
  index_file updated <> index_file full /\
  load_index (index_file updated) <> load_index (index_file full).
Proof.
  vm_compute. split; [reflexivity |]. split; [repeat constructor |].
  repeat split; try reflexivity; intros H; discriminate H.
Qed.

(** When a date key holds whitespace, its entry line has more than two fields
    and [load_index] passes over it: the update takes the date for a new one
    and writes a second entry, which a full build does not. *)
Lemma update_after_build_spaced_key :
  let built := build_index decode_ascii (fresh spaced_log) in
  let updated := fst (update_index decode_ascii (append_log spaced_records built)) in
  let full := build_index decode_ascii (append_log spaced_records (fresh spaced_log)) in
  complete_records spaced_log /\
  Sorted String.le (dates_of decode_ascii (spaced_log ++ spaced_records)) /\
  index_file full = Some ("Jan  1 12: 0" +:+ nl) /\
  index_file updated
    = Some ("Jan  1 12: 0" +:+ nl +:+ "Jan  1 12: 21" +:+ nl).
Proof.
  split; [by right |]. vm_compute. split; [repeat constructor |].
  split; reflexivity.
Qed.

(** * Further properties *)

(** ** The task list *)

Lemma tasks_for_lookup W start_offset end_offset (i : nat) :
  (i < Z.to_nat W)%nat ->
  tasks_for W start_offset end_offset !! i =
  Some (start_offset + Z.of_nat i * (Z.abs (end_offset - start_offset) `div` W),
        if Z.of_nat i =? W - 1 then end_offset
        else start_offset + (Z.of_nat i + 1) * (Z.abs (end_offset - start_offset) `div` W)).
Proof.
  intros Hi. unfold tasks_for. rewrite list_lookup_fmap.
  rewrite lookup_seq_lt by done. reflexivity.
Qed.

(** X1. The task list of [extract_logs] for [W >= 1] workers has [W] chunks;
    the first begins at the start offset, the last ends at the end offset,
    and every chunk ends where the next one begins.  When the start offset
    is not past the end offset, every chunk lies inside the range and does
    not end before it begins. *)
Theorem tasks_for_tiling (W start_offset end_offset : Z) :
  1 <= W ->
  let tasks := tasks_for W start_offset end_offset in
  length tasks = Z.to_nat W /\
  fst <$> head tasks = Some start_offset /\
  snd <$> last tasks = Some end_offset /\
  (forall i a b, tasks !! i = Some a -> tasks !! S i = Some b -> a.2 = b.1) /\
  (start_offset <= end_offset ->
   forall i a, tasks !! i = Some a ->
     start_offset <= a.1 /\ a.1 <= a.2 /\ a.2 <= end_offset).
Proof.
  intros HW tasks.
  assert (Hlen : length tasks = Z.to_nat W).
  { unfold tasks, tasks_for. by rewrite length_fmap, length_seq. }
  split; [exact Hlen |].
  split.
  { rewrite head_lookup. unfold tasks. rewrite tasks_for_lookup by lia.
    simpl. f_equal. lia. }
  split.
  { rewrite last_lookup, Hlen. unfold tasks. rewrite tasks_for_lookup by lia.
    simpl. replace (Z.of_nat (Init.Nat.pred (Z.to_nat W)) =? W - 1) with true; [done |].
    symmetry. apply Z.eqb_eq. lia. }
  split.
  { intros i a b Ha Hb.
    assert (S i < Z.to_nat W)%nat as Hi.
    { rewrite <- Hlen. by eapply lookup_lt_Some. }
    unfold tasks in Ha, Hb.
    rewrite tasks_for_lookup in Ha by lia. rewrite tasks_for_lookup in Hb by lia.
    injection Ha as <-. injection Hb as <-. simpl.
    replace (Z.of_nat i =? W - 1) with false by (symmetry; apply Z.eqb_neq; lia).
    lia. }
  intros Hle i a Ha.
  assert (i < Z.to_nat W)%nat as Hi.
  { rewrite <- Hlen. by eapply lookup_lt_Some. }
  unfold tasks in Ha. rewrite tasks_for_lookup in Ha by lia.
  injection Ha as <-. simpl.
  rewrite Z.abs_eq by lia.
  set (total := end_offset - start_offset).
  set (cs := total `div` W).
  assert (0 <= cs) by (apply Z.div_pos; lia).
  assert (W * cs <= total) by (apply Z.mul_div_le; lia).
  destruct (Z.eqb_spec (Z.of_nat i) (W - 1)) as [Hi' | Hi']; nia.
Qed.

(** ** Chunks *)

Lemma scanned_before_spec chunk_end ols o :
  scanned_before chunk_end ols o <->
  forall o' l', (o', l') ∈ ols -> o' < o -> o' < chunk_end.
Proof.
  unfold scanned_before. rewrite Forall_forall. split.
  - intros H o' l' Hin. apply (H (o', l') Hin).
  - intros H [o' l'] Hin. simpl. by apply (H o' l').
Qed.

Lemma elem_of_keep decode target line x :
  x ∈ keep decode target line <->
  x = decode line /\ startswith (decode line) target = true.
Proof.
  unfold keep. destruct (startswith (decode line) target).
  - rewrite list_elem_of_singleton. split; [by intros -> | by intros [-> _]].
  - split; [by intros ?%elem_of_nil | by intros [_ ?]].
Qed.

Lemma process_chunk_scan_elem decode pos lines chunk_end target x :
  Forall (fun l => l <> []) lines ->
  x ∈ process_chunk_scan decode pos lines chunk_end target <->
  exists o l, (o, l) ∈ with_offsets pos lines /\ x ∈ keep decode target l /\
    scanned_before chunk_end (with_offsets pos lines) o.
Proof.
  intros Hne. revert pos. setoid_rewrite scanned_before_spec.
  induction Hne as [|line rest Hline Hrest IH]; intros pos; simpl.
  { split; [by intros ?%elem_of_nil |].
    by intros (o & l & ?%elem_of_nil & _). }
  assert (Hhead : forall o' l',
            (o', l') ∈ (pos, line) :: with_offsets (pos + Z.of_nat (length line)) rest ->
            o' < pos -> o' < chunk_end).
  { intros o' l' [[= -> ->] | H]%elem_of_cons Hlt; [lia |].
    apply with_offsets_ge in H. lia. }
  assert (0 < Z.of_nat (length line)) as Hpos.
  { destruct line; [done | simpl; lia]. }
  destruct (Z.leb_spec chunk_end pos) as [Hle | Hlt].
  - split.
    + intros Hx. exists pos, line. split; [left | done].
    + intros (o & l & [[= -> ->] | H]%elem_of_cons & Hx & Hsc); [done |].
      apply with_offsets_ge in H.
      specialize (Hsc pos line). ospecialize* Hsc; [left | lia | lia].
  - rewrite elem_of_app, IH. split.
    + intros [Hx | (o & l & Hin & Hx & Hsc)].
      * exists pos, line. split; [left | done].
      * exists o, l. split; [by right |]. split; [done |].
        intros o' l' [[= -> ->] | H]%elem_of_cons Hlt'; [done | eauto].
    + intros (o & l & [[= -> ->] | H]%elem_of_cons & Hx & Hsc); [by left |].
      right. exists o, l. split; [done |]. split; [done |].
      intros o' l' H' Hlt'. apply (Hsc o' l'); [by right | done].
Qed.

Lemma readline_app bs l r : readline bs = (l, r) -> bs = l ++ r.
Proof.
  revert l r. induction bs as [|b bs IH]; intros l r; simpl; [by intros [= <- <-] |].
  destruct (is_lf b); [by intros [= <- <-] |].
  destruct (readline bs) as [l' r'] eqn:E. intros [= <- <-].
  simpl. f_equal. by apply IH.
Qed.

Lemma readline_drop bs l r n :
  readline bs = (l, r) -> (n < length l)%nat ->
  readline (drop n bs) = (drop n l, r).
Proof.
  revert l r n. induction bs as [|b bs IH]; intros l r n; simpl.
  { intros [= <- <-]. simpl. lia. }
  destruct (is_lf b) eqn:Hb.
  - intros [= <- <-] Hn. simpl in Hn. assert (n = 0)%nat as -> by lia.
    simpl. by rewrite Hb.
  - destruct (readline bs) as [l' r'] eqn:E. intros [= <- <-] Hn.
    destruct n as [|n]; simpl; [by rewrite Hb, E |].
    apply IH; [done | simpl in Hn; lia].
Qed.

Lemma filter_with_offsets_gt p q lines :
  q < p -> filter (fun ol : Z * bytes => q < ol.1) (with_offsets p lines)
           = with_offsets p lines.
Proof.
  intros Hq. revert p Hq. induction lines as [|x lines IH]; intros p Hq; [done |].
  simpl. rewrite filter_cons_True by (simpl; lia). f_equal. apply IH. lia.
Qed.

(** Reading from position [n] of a file: after the first read, which may be
    the tail of a line, the reads are the lines of the file that begin after
    [n]. *)
Lemma with_offsets_readlines_drop bs p n :
  tail (with_offsets (p + Z.of_nat n) (readlines (drop n bs))) =
  filter (fun ol : Z * bytes => p + Z.of_nat n < ol.1) (with_offsets p (readlines bs)).
Proof.
  remember (length bs) as k eqn:Hk. revert bs p n Hk.
  induction (lt_wf k) as [k _ IH]. intros bs p n ->.
  rewrite (readlines_readline bs).
  destruct (readline bs) as [l r] eqn:E.
  destruct l as [|b l].
  { apply readline_empty in E as [-> ->]. by rewrite drop_nil. }
  pose proof (readline_app _ _ _ E) as Hbs.
  cbn [with_offsets]. rewrite filter_cons_False by (simpl; lia).
  destruct (decide (n < length (b :: l))%nat) as [Hn | Hn].
  - pose proof (readline_drop _ _ _ _ E Hn) as Ed.
    rewrite (readlines_readline (drop n bs)), Ed.
    destruct (drop n (b :: l)) as [|b' l'] eqn:Edrop.
    { apply (f_equal length) in Edrop. rewrite length_drop in Edrop.
      simpl in Edrop, Hn. lia. }
    cbn [with_offsets tail].
    assert (length (b' :: l') = length (b :: l) - n)%nat as Hlen.
    { rewrite <- Edrop. by rewrite length_drop. }
    replace (p + Z.of_nat n + Z.of_nat (length (b' :: l')))
      with (p + Z.of_nat (length (b :: l))) by lia.
    rewrite filter_with_offsets_gt; [done | lia].
  - assert (drop n bs = drop (n - length (b :: l)) r) as ->.
    { rewrite Hbs. rewrite drop_app_ge by lia. done. }
    replace (p + Z.of_nat n)
      with (p + Z.of_nat (length (b :: l)) + Z.of_nat (n - length (b :: l))) by lia.
    eapply IH; [| reflexivity].
    rewrite Hbs, length_app. simpl. lia.
Qed.

Lemma readlines_all_nonempty bs : Forall (fun l : bytes => l <> []) (readlines bs).
Proof. apply Forall_forall. intros l. apply readlines_nonempty. Qed.

Lemma after_start_0 ols : after_start 0 ols = ols.
Proof.
  unfold after_start. induction ols as [|x ols IH]; [done |].
  rewrite filter_cons_True by (by left). by rewrite IH.
Qed.

Lemma after_start_pos s ols :
  s <> 0 -> after_start s ols = filter (fun ol : Z * bytes => s < ol.1) ols.
Proof.
  intros Hs. unfold after_start. apply list_filter_iff. intros ol. lia.
Qed.

(** What a worker returns, in terms of the lines of the file. *)
Lemma process_chunk_elem decode file chunk_start chunk_end target :
  0 <= chunk_start -> fits_off_t file chunk_start = true ->
  exists out,
    process_chunk decode file chunk_start chunk_end target = Ok out /\
    forall x, x ∈ out <->
      exists ol, chunk_reads file chunk_start chunk_end ol /\
                 x = decode ol.2 /\ startswith (decode ol.2) target = true.
Proof.
  intros Hs Hfit. unfold process_chunk, chunk_reads.
  rewrite (seek_fits _ _ Hs Hfit).
  assert (Hscan : forall pos lines,
            Forall (fun l : bytes => l <> []) lines ->
            with_offsets pos lines = after_start chunk_start (file_lines file) ->
            forall x, x ∈ process_chunk_scan decode pos lines chunk_end target <->
              exists ol, (ol ∈ after_start chunk_start (file_lines file) /\
                          scanned_before chunk_end
                            (after_start chunk_start (file_lines file)) ol.1) /\
                         x = decode ol.2 /\ startswith (decode ol.2) target = true).
  { intros pos lines Hne <- x. rewrite process_chunk_scan_elem by done.
    setoid_rewrite elem_of_keep. split.
    - intros (o & l & Hin & [-> Hsw] & Hsc). by exists (o, l).
    - intros ([o l] & [Hin Hsc] & -> & Hsw). by exists o, l. }
  destruct (Z.eqb_spec chunk_start 0) as [-> | Hne].
  - eexists. split; [reflexivity |]. apply Hscan.
    + apply readlines_all_nonempty.
    + by rewrite after_start_0.
  - pose proof (with_offsets_readlines_drop file 0 (Z.to_nat chunk_start)) as Hd.
    rewrite Z.add_0_l, Z2Nat.id in Hd by done.
    pose proof (readlines_all_nonempty (drop (Z.to_nat chunk_start) file)) as Hall.
    rewrite after_start_pos by done. fold (file_lines file) in Hd.
    destruct (readlines (drop (Z.to_nat chunk_start) file)) as [|partial lines'].
    + eexists. split; [reflexivity |].
      rewrite <- after_start_pos by done. apply Hscan; [done |].
      rewrite after_start_pos by done. by rewrite <- Hd.
    + eexists. split; [reflexivity |].
      rewrite <- after_start_pos by done.
      apply Hscan; [by inversion Hall |].
      rewrite after_start_pos by done. by rewrite <- Hd.
Qed.

(** ** Tiling of the range by the tasks *)

Lemma tasks_for_seq_tiles W start_offset end_offset (i k : nat) :
  1 <= W -> start_offset < end_offset ->
  (i + S k = Z.to_nat W)%nat ->
  let chunk_size := Z.abs (end_offset - start_offset) `div` W in
  tiles (start_offset + Z.of_nat i * chunk_size) end_offset
    ((fun i : nat =>
        let i := Z.of_nat i in
        (start_offset + i * chunk_size,
         if i =? W - 1 then end_offset else start_offset + (i + 1) * chunk_size))
     <$> seq i (S k)).
Proof.
  intros HW Hlt Hik chunk_size.
  assert (0 <= chunk_size) as Hcs by (apply Z.div_pos; lia).
  assert (W * chunk_size <= end_offset - start_offset) as Hmul.
  { unfold chunk_size. rewrite Z.abs_eq by lia. apply Z.mul_div_le. lia. }
  revert i Hik. induction k as [|k IH]; intros i Hik.
  - simpl. split; [done |].
    destruct (Z.eqb_spec (Z.of_nat i) (W - 1)); [done | lia].
  - change (seq i (S (S k))) with (i :: seq (S i) (S k)).
    rewrite fmap_cons. cbn [tiles].
    split; [done |].
    destruct (Z.eqb_spec (Z.of_nat i) (W - 1)) as [? | Hne]; [lia |].
    specialize (IH (S i)). ospecialize* IH; [lia |].
    destruct (_ <$> seq (S i) (S k)) as [|t rest] eqn:E; [done |].
    split; [nia |]. split; [nia |].
    replace (start_offset + (Z.of_nat i + 1) * chunk_size)
      with (start_offset + Z.of_nat (S i) * chunk_size) by lia.
    exact IH.
Qed.

Lemma tasks_for_tiles W start_offset end_offset :
  1 <= W -> start_offset < end_offset ->
  tiles start_offset end_offset (tasks_for W start_offset end_offset).
Proof.
  intros HW Hlt. unfold tasks_for.
  destruct (Z.to_nat W) as [|k] eqn:Ek; [lia |].
  pose proof (tasks_for_seq_tiles W start_offset end_offset 0 k HW Hlt) as H.
  cbv zeta in H. change (Z.of_nat 0) with 0 in H.
  rewrite Z.mul_0_l, Z.add_0_r in H. apply H. lia.
Qed.

Lemma tiles_bounds a b tasks t :
  tiles a b tasks -> a < b -> t ∈ tasks -> a <= t.1 /\ t.1 < b /\ t.2 <= b.
Proof.
  revert a. induction tasks as [|[s e] rest IH]; intros a; [done |].
  cbn [tiles]. intros [-> Hrest] Hab [-> | Hin]%elem_of_cons.
  - simpl. destruct rest; lia.
  - destruct rest as [|r rest']; [by apply elem_of_nil in Hin |].
    destruct Hrest as (Hae & Heb & Ht).
    destruct (IH e Ht Heb Hin) as (? & ? & ?). lia.
Qed.

Section Tiling.
Variable ols : list (Z * bytes).

Lemma elem_of_after_start s ol :
  ol ∈ after_start s ols <-> (s = 0 \/ s < ol.1) /\ ol ∈ ols.
Proof. unfold after_start. by rewrite list_elem_of_filter. Qed.

(** A line that one worker over the whole range reads is read by the worker
    of some tile. *)
Lemma tiles_cover a b tasks ol :
  tiles a b tasks -> 0 <= a ->
  ol ∈ after_start a ols -> scanned_before b (after_start a ols) ol.1 ->
  exists t, t ∈ tasks /\ ol ∈ after_start t.1 ols /\
            scanned_before t.2 (after_start t.1 ols) ol.1.
Proof.
  revert a. induction tasks as [|[s e] rest IH]; intros a; [done |].
  cbn [tiles]. intros [-> Hrest] Ha Hin Hsc.
  destruct rest as [|r rest'].
  { subst e. exists (a, b). split; [left | done]. }
  destruct Hrest as (Hae & Heb & Ht).
  destruct (decide (scanned_before e (after_start a ols) ol.1)) as [Hy | Hn].
  { exists (a, e). split; [left | done]. }
  apply not_Forall_Exists in Hn; [| intros x; apply _].
  apply Exists_exists in Hn as (ol' & Hin' & Hol').
  assert (ol'.1 < ol.1 /\ e <= ol'.1) as [Hlt' Hge'].
  { split.
    - apply Z.nle_gt. intros Hc. apply Hol'. intros. lia.
    - apply Z.nlt_ge. intros Hc. apply Hol'. intros. done. }
  assert (e < ol.1) as Hlt by lia.
  destruct (IH e Ht) as (t & Htin & Htm & Hts).
  - lia.
  - apply elem_of_after_start. apply elem_of_after_start in Hin as [_ Hin].
    split; [by right | done].
  - apply Forall_forall. intros x Hx Hxo.
    unfold scanned_before in Hsc. rewrite Forall_forall in Hsc.
    apply Hsc; [| done]. apply elem_of_after_start.
    apply elem_of_after_start in Hx as [Hx1 Hx2]. split; [lia | done].
  - exists t. split; [by right | done].
Qed.

(** What the worker of a tile reads, one worker over the whole range reads. *)
Lemma tiles_sound a b tasks t ol :
  tiles a b tasks -> 0 <= a < b -> t ∈ tasks ->
  ol ∈ after_start t.1 ols -> scanned_before t.2 (after_start t.1 ols) ol.1 ->
  ol ∈ after_start a ols /\ scanned_before b (after_start a ols) ol.1.
Proof.
  intros Ht Hab Hin Hm Hsc.
  destruct (tiles_bounds _ _ _ _ Ht (proj2 Hab) Hin) as (H1 & H2 & H3).
  apply elem_of_after_start in Hm as [Hm1 Hm2].
  split; [apply elem_of_after_start; split; [lia | done] |].
  apply Forall_forall. intros x Hx Hxo.
  apply elem_of_after_start in Hx as [Hx1 Hx2].
  unfold scanned_before in Hsc. rewrite Forall_forall in Hsc.
  destruct (decide (t.1 = 0 \/ t.1 < x.1)) as [Hy | Hn]; [| lia].
  specialize (Hsc x). ospecialize* Hsc; [| done | lia].
  by apply elem_of_after_start.
Qed.

End Tiling.

(** ** The pool *)

Lemma pool_map_elem decode file target tasks :
  Forall (fun t : Z * Z => 0 <= t.1 /\ fits_off_t file t.1 = true) tasks ->
  exists results,
    pool_map decode file target tasks = Ok results /\
    length results = length tasks /\
    forall x, x ∈ concat results <->
      exists t out, t ∈ tasks /\
        process_chunk decode file t.1 t.2 target = Ok out /\ x ∈ out.
Proof.
  induction 1 as [|[s e] tasks [Hs Hfit] Hrest (results & Hr & Hlen & Hx)]; simpl.
  { exists []. split; [done |]. split; [done |]. intros x. split.
    - by intros ?%elem_of_nil.
    - by intros (t & out & ?%elem_of_nil & _). }
  destruct (process_chunk_elem decode file s e target Hs Hfit) as (out & Ho & _).
  rewrite Ho, Hr. exists (out :: results).
  split; [done |]. split; [by rewrite <- Hlen |].
  intros x. simpl. rewrite elem_of_app, Hx. split.
  - intros [Hin | (t & out' & Hin & Ho' & Hxo)].
    + exists (s, e), out. split; [left | done].
    + exists t, out'. split; [by right | done].
  - intros (t & out' & [-> | Hin]%elem_of_cons & Ho' & Hxo).
    + left. simpl in Ho'. congruence.
    + right. by exists t, out'.
Qed.

Lemma pool_map_tasks_for decode file target W start_offset end_offset :
  1 <= W -> 0 <= start_offset < end_offset ->
  (forall pos, 0 <= pos < end_offset -> fits_off_t file pos = true) ->
  exists results,
    pool_map decode file target (tasks_for W start_offset end_offset) = Ok results /\
    length results = Z.to_nat W /\
    forall x, x ∈ concat results <->
      exists ol, chunk_reads file start_offset end_offset ol /\
                 x = decode ol.2 /\ startswith (decode ol.2) target = true.
Proof.
  intros HW Hse Hfits.
  pose proof (tasks_for_tiles W start_offset end_offset HW (proj2 Hse)) as Ht.
  destruct (pool_map_elem decode file target (tasks_for W start_offset end_offset))
    as (results & Hr & Hlen & Hx).
  { apply Forall_forall. intros t Hin.
    destruct (tiles_bounds _ _ _ _ Ht (proj2 Hse) Hin) as (? & ? & _).
    split; [lia |]. apply Hfits. lia. }
  exists results. split; [done |].
  split. { rewrite Hlen. unfold tasks_for. by rewrite length_fmap, length_seq. }
  intros x. rewrite Hx. split.
  - intros (t & out & Hin & Ho & Hxo).
    destruct (tiles_bounds _ _ _ _ Ht (proj2 Hse) Hin) as (Hts & Hte & _).
    destruct (process_chunk_elem decode file t.1 t.2 target) as (out' & Ho' & Hout);
      [lia | apply Hfits; lia |].
    assert (out' = out) as -> by congruence.
    apply Hout in Hxo as (ol & [Hm Hsc] & Hxl & Hsw).
    exists ol. split; [| done]. unfold chunk_reads.
    eapply tiles_sound; eauto.
  - intros (ol & [Hm Hsc] & Hxl & Hsw).
    destruct (tiles_cover _ _ _ _ _ Ht (proj1 Hse) Hm Hsc) as (t & Hin & Htm & Hts).
    destruct (tiles_bounds _ _ _ _ Ht (proj2 Hse) Hin) as (Hge & Hlt & _).
    destruct (process_chunk_elem decode file t.1 t.2 target) as (out & Ho & Hout);
      [lia | apply Hfits; lia |].
    exists t, out. split; [done |]. split; [done |].
    apply Hout. exists ol. by split.
Qed.

(** A line that begins inside the range, after its first byte, is read by a
    worker on that range; so is the line at offset 0. *)
Lemma chunk_reads_range file start_offset end_offset o l :
  (o, l) ∈ file_lines file ->
  (start_offset = 0 \/ start_offset < o) -> o < end_offset ->
  chunk_reads file start_offset end_offset (o, l).
Proof.
  intros Hin Hs He. split.
  - apply elem_of_after_start. by split.
  - apply Forall_forall. intros x _ Hx. simpl in Hx. lia.
Qed.

(** ** The list a worker returns *)




(** ** Bounds of a chunk *)


Lemma seek_unfit (file : bytes) (pos : Z) :
  fits_off_t file pos = false -> seek file pos = Raise ValueError.
Proof. intros H. unfold seek. by rewrite H. Qed.

Lemma seek_negative (file : bytes) (pos : Z) :
  off_t_min <= pos < 0 -> seek file pos = Raise OSError.
Proof.
  intros Hpos. unfold seek, fits_off_t, off_t_max.
  destruct (Z.leb_spec off_t_min pos); [| lia].
  destruct (Z.leb_spec pos 9223372036854775807); [| lia]. simpl.
  by destruct (Z.ltb_spec pos 0); [| lia].
Qed.

Lemma fits_off_t_below (file : bytes) (pos : Z) :
  pos < off_t_min -> fits_off_t file pos = false.
Proof.
  intros Hpos. unfold fits_off_t.
  by destruct (Z.leb_spec off_t_min pos); [lia |].
Qed.


(** ** Loading: when it raises *)

Lemma load_index_lines_cases lines index :
  (exists loaded, load_index_lines lines index = Ok loaded) \/
  (load_index_lines lines index = Raise ValueError /\
   exists line date offset,
     line ∈ lines /\ py_split (py_strip line) = [date; offset] /\
     py_int offset = None).
Proof.
  revert index. induction lines as [|l lines IH]; intros index; simpl; [eauto |].
  assert (Hnext : forall index',
    (exists loaded, load_index_lines lines index' = Ok loaded) \/
    (load_index_lines lines index' = Raise ValueError /\
     exists line date offset,
       line ∈ l :: lines /\ py_split (py_strip line) = [date; offset] /\
       py_int offset = None)).
  { intros index'. destruct (IH index') as [? | (? & line & d & o & ? & ? & ?)];
      [by left | right]. split; [done |]. exists line, d, o. split; [by right | done]. }
  destruct (py_split (py_strip l)) as [|a [|b [|c q]]] eqn:E; auto.
  destruct (py_int b) eqn:Eb; auto.
  right. split; [done |]. exists l, a, b. split; [left | done].
Qed.

Lemma load_index_lines_app l1 l2 index :
  load_index_lines (l1 ++ l2) index =
  match load_index_lines l1 index with
  | Raise e => Raise e
  | Ok loaded => load_index_lines l2 loaded
  end.
Proof.
  revert index. induction l1 as [|l l1 IH]; intros index; [done |].
  simpl. destruct (py_split (py_strip l)) as [|a [|b [|c q]]]; auto.
  destruct (py_int b); auto.
Qed.

(** Lines that do not name [date] leave its entry as it is. *)
Lemma load_index_lines_other lines index loaded date :
  load_index_lines lines index = Ok loaded ->
  (forall l offset, l ∈ lines -> py_split (py_strip l) <> [date; offset]) ->
  loaded !! date = index !! date.
Proof.
  revert index. induction lines as [|l lines IH]; intros index; simpl.
  { by intros [= ->]. }
  intros Hl Hno.
  assert (forall l' offset, l' ∈ lines -> py_split (py_strip l') <> [date; offset])
    as Hno' by (intros l' o' Hin; apply Hno; by right).
  pose proof (fun o' => Hno l o' ltac:(left)) as Hhead.
  destruct (py_split (py_strip l)) as [|a [|b [|c q]]] eqn:E; eauto.
  destruct (py_int b) eqn:Eb; [| done].
  rewrite (IH _ Hl Hno'). apply lookup_insert_ne. intros ->. by apply (Hhead b).
Qed.

Lemma load_index_lines_last pre line post index loaded date offset n :
  load_index_lines (pre ++ line :: post) index = Ok loaded ->
  py_split (py_strip line) = [date; offset] -> py_int offset = Some n ->
  (forall l offset', l ∈ post -> py_split (py_strip l) <> [date; offset']) ->
  loaded !! date = Some n.
Proof.
  intros Hl Hs Hi Hno. rewrite load_index_lines_app in Hl.
  destruct (load_index_lines pre index) as [mid | e]; [| done].
  simpl in Hl. rewrite Hs, Hi in Hl.
  rewrite (load_index_lines_other _ _ _ _ Hl Hno). apply lookup_insert_eq.
Qed.

(** ** What the calls leave alone *)

Lemma update_index_log_file decode w :
  log_file (fst (update_index decode w)) = log_file w.
Proof.
  unfold update_index.
  destruct (load_index (index_file w)); [| done].
  destruct (_ <=? _); [done |].
  destruct (seek _ _); [| done].
  by destruct (decide _).
Qed.

Lemma ensure_index_log_file decode w :
  log_file (fst (ensure_index decode w)) = log_file w.
Proof.
  unfold ensure_index. destruct (index_file w);
    [apply update_index_log_file | done].
Qed.

Lemma extract_logs_with_frame decode W target w :
  let r := extract_logs_with decode W target w in
  log_file (fst r) = log_file w /\
  (forall d, d <> target -> output_files (fst r) !! d = output_files w !! d) /\
  (snd r <> None -> output_files (fst r) = output_files w).
Proof.
  pose proof (ensure_index_log_file decode w) as Hlog.
  pose proof (ensure_index_output_files decode w) as Hout.
  cbv zeta. unfold extract_logs_with.
  destruct (ensure_index decode w) as [w1 [e|]]; simpl in Hlog, Hout;
    [simpl; by rewrite Hout |].
  destruct (load_index (index_file w1)) as [index | e]; [| simpl; by rewrite Hout].
  destruct (index !! target) as [offset|]; [| simpl; by rewrite Hout].
  destruct (get_date_range _ _ _) as [[start_offset end_offset]|];
    [| simpl; by rewrite Hout].
  destruct (_ <=? 0); [simpl; by rewrite Hout |].
  destruct (pool_map _ _ _ _) as [results | e]; [| simpl; by rewrite Hout].
  destruct (open_output target) as [e|]; [simpl; by rewrite Hout |].
  simpl. split; [done |]. split; [| done].
  intros d Hd. rewrite lookup_insert_ne by done. by rewrite Hout.
Qed.

(** ** The watermark after an update *)

Lemma update_index_watermark decode w w1 :
  update_index decode w = (w1, None) ->
  log_file w1 = log_file w /\
  getsize (log_file w1) <= read_last_processed_offset (index_info_file w1).
Proof.
  unfold update_index.
  destruct (load_index (index_file w)) as [index | e]; [| done].
  destruct (Z.leb_spec (getsize (log_file w))
              (read_last_processed_offset (index_info_file w))) as [Hle | Hgt].
  { intros [= <-]. by destruct w. }
  destruct (seek _ _) as [rest | e]; [| done].
  intros [= <-].
  destruct (decide _);
    cbn [log_file index_info_file set_index_info set_index print];
    rewrite read_watermark_py_str; split; (done || lia).
Qed.

Lemma update_index_noop_files decode w :
  getsize (log_file w) <= read_last_processed_offset (index_info_file w) ->
  index_file (fst (update_index decode w)) = index_file w /\
  index_info_file (fst (update_index decode w)) = index_info_file w.
Proof.
  intros Hle. apply Z.leb_le in Hle. unfold update_index.
  destruct (load_index (index_file w)); rewrite ?Hle; by destruct w.
Qed.

(** X15. With an entry list that loads and a negative watermark,
    [update_index] raises at the seek and leaves every file as it was.  The
    exception is [OSError] when the watermark converts to an [off_t], and
    [ValueError] when it is below the least [off_t]. *)
Theorem update_index_negative decode w index :
  load_index (index_file w) = Ok index ->
  read_last_processed_offset (index_info_file w) < 0 ->
  update_index decode w =
    (w, Some (if read_last_processed_offset (index_info_file w) <? off_t_min
              then ValueError else OSError)).
Proof.
  intros Hl Hneg. unfold update_index. rewrite Hl.
  assert (0 <= getsize (log_file w)) by (unfold getsize; lia).
  destruct (Z.leb_spec (getsize (log_file w))
              (read_last_processed_offset (index_info_file w))); [lia |].
  destruct (Z.ltb_spec (read_last_processed_offset (index_info_file w)) off_t_min).
  - by rewrite seek_unfit by by apply fits_off_t_below.
  - by rewrite seek_negative by lia.
Qed.

(** ** Keys and offsets of the built index *)

Lemma substring_length n s :
  String.length (String.substring 0 n s) = Nat.min n (String.length s).
Proof.
  revert s. induction n as [|n IH]; intros [|c s]; simpl; try done.
  by rewrite IH.
Qed.

Lemma with_offsets_has offset lines l :
  l ∈ lines -> exists o, (o, l) ∈ with_offsets offset lines.
Proof.
  revert offset. induction lines as [|x lines IH]; intros offset;
    [by intros ?%elem_of_nil |].
  intros [-> | Hin]%elem_of_cons; simpl.
  - exists offset. left.
  - destruct (IH (offset + Z.of_nat (length x)) Hin) as [o Ho].
    exists o. by right.
Qed.

(** The line listed at an offset is the one a read at that offset returns. *)
Lemma with_offsets_readline bs p o l :
  (o, l) ∈ with_offsets p (readlines bs) ->
  (readline (drop (Z.to_nat (o - p)) bs)).1 = l.
Proof.
  remember (length bs) as k eqn:Hk. revert bs p Hk.
  induction (lt_wf k) as [k _ IH]. intros bs p ->.
  rewrite (readlines_readline bs).
  destruct (readline bs) as [l0 r] eqn:E.
  destruct l0 as [|b l0]; [by intros ?%elem_of_nil |].
  pose proof (readline_app _ _ _ E) as Hbs.
  cbn [with_offsets]. intros [[= -> ->] | Hin]%elem_of_cons.
  - by rewrite Z.sub_diag, drop_0, E.
  - pose proof (with_offsets_ge _ _ _ _ Hin) as Hge.
    assert (drop (Z.to_nat (o - p)) bs
            = drop (Z.to_nat (o - (p + Z.of_nat (length (b :: l0))))) r) as ->.
    { rewrite Hbs at 1. rewrite drop_app_ge by lia. f_equal. lia. }
    eapply IH; [| reflexivity | exact Hin].
    rewrite Hbs, length_app. simpl. lia.
Qed.

Lemma file_lines_readline file o l :
  (o, l) ∈ file_lines file -> (readline (drop (Z.to_nat o) file)).1 = l.
Proof.
  intros H%with_offsets_readline. by rewrite Z.sub_0_r in H.
Qed.

Lemma file_lines_lt_size file o l :
  (o, l) ∈ file_lines file -> 0 <= o < getsize file.
Proof.
  intros (H0 & Hne & Ht)%file_lines_slice. split; [done |].
  unfold getsize. destruct (decide (Z.to_nat o < length file)%nat); [lia |].
  rewrite drop_ge, take_nil in Ht by lia. congruence.
Qed.

Section Entries.
Variable decode : bytes -> string.

Lemma date_key_length line date :
  date_key decode line = Some date -> String.length date = 10%nat.
Proof.
  destruct (date_key_cases decode line) as [[_ ->] | [Hlen ->]]; [done |].
  intros [= <-]. unfold first10. rewrite substring_length.
  apply Nat.ltb_ge in Hlen. lia.
Qed.

Lemma startswith_date_key line target :
  String.length target = 10%nat ->
  startswith (decode line) target = true <-> date_key decode line = Some target.
Proof.
  intros Hlen. unfold startswith. rewrite String.prefix_correct, Hlen.
  fold (first10 (decode line)).
  destruct (date_key_cases decode line) as [[Hl ->] | [Hl ->]].
  - split; [| done]. intros Hs. apply Nat.ltb_lt in Hl.
    apply (f_equal String.length) in Hs. unfold first10 in Hs.
    rewrite substring_length in Hs. lia.
  - split; [by intros -> | by intros [= ->]].
Qed.

Lemma built_index_lookup file date :
  built_index decode file !! date = first_with decode date (file_lines file).
Proof. unfold built_index. by rewrite build_index_scan_lookup. Qed.

Lemma built_index_first file date offset :
  built_index decode file !! date = Some offset ->
  (exists l, (offset, l) ∈ file_lines file /\ date_key decode l = Some date) /\
  forall o' l', (o', l') ∈ file_lines file ->
                date_key decode l' = Some date -> offset <= o'.
Proof. rewrite built_index_lookup. apply first_with_least. Qed.

Lemma built_index_has file date :
  date ∈ dates_of decode file -> is_Some (built_index decode file !! date).
Proof.
  intros (line & Hin & Hk)%list_elem_of_omap.
  destruct (with_offsets_has 0 _ _ Hin) as [o Ho].
  rewrite built_index_lookup.
  destruct (first_with decode date (file_lines file)) eqn:E; [done |].
  by destruct (first_with_none decode _ _ _ _ E Ho).
Qed.

Lemma built_index_loads file :
  Forall (fun date => no_space date = true) (dates_of decode file) ->
  load_index (Some (entry_lines (built_index decode file)))
    = Ok (built_index decode file).
Proof.
  intros Hplain. apply load_index_entry_lines.
  intros date Hd%built_index_dom. split.
  - rewrite Forall_forall in Hplain. by apply Hplain.
  - apply list_elem_of_omap in Hd as (line & _ & Hk).
    by eapply date_key_nonempty.
Qed.

End Entries.

(** ** A log in date order *)

Section Ordered.
Variable decode : bytes -> string.

Lemma with_offsets_key_order p lines o1 l1 o2 l2 d1 d2 :
  StronglySorted String.le (omap (date_key decode) lines) ->
  (o1, l1) ∈ with_offsets p lines -> (o2, l2) ∈ with_offsets p lines ->
  o1 < o2 ->
  date_key decode l1 = Some d1 -> date_key decode l2 = Some d2 ->
  String.le d1 d2.
Proof.
  revert p. induction lines as [|x lines IH]; intros p Hs;
    [by intros ?%elem_of_nil |].
  rewrite omap_cons in Hs. cbn [with_offsets].
  assert (StronglySorted String.le (omap (date_key decode) lines)) as Hs'.
  { destruct (date_key decode x); [by inversion Hs | done]. }
  intros [[= -> ->] | H1]%elem_of_cons [[= -> ->] | H2]%elem_of_cons Hlt Hk1 Hk2.
  - lia.
  - rewrite Hk1 in Hs. inversion Hs as [|? ? _ Hall]; subst.
    rewrite Forall_forall in Hall. apply Hall.
    apply list_elem_of_omap. exists l2. split; [| done].
    by eapply with_offsets_elem.
  - apply with_offsets_ge in H1. lia.
  - by eapply IH.
Qed.

(** In a log in date order, a line of an earlier date begins before every
    line of a later date. *)
Lemma file_lines_date_order file o1 l1 o2 l2 d1 d2 :
  Sorted String.le (dates_of decode file) ->
  (o1, l1) ∈ file_lines file -> (o2, l2) ∈ file_lines file ->
  date_key decode l1 = Some d1 -> date_key decode l2 = Some d2 ->
  str_lt d1 d2 -> o1 < o2.
Proof.
  intros Hs%Sorted_StronglySorted H1 H2 Hk1 Hk2 [Hle Hne]; [| apply _].
  destruct (Z.lt_trichotomy o1 o2) as [? | [-> | Hgt]]; [done | |].
  - apply file_lines_readline in H1, H2. congruence.
  - destruct Hne. apply (anti_symm String.le); [done |].
    by eapply (with_offsets_key_order 0 (readlines file) o2 l2 o1 l1).
Qed.

Lemma get_date_range_start target (index : gmap string Z) file start_offset :
  index !! target = Some start_offset ->
  exists end_offset,
    get_date_range target index file = Some (start_offset, end_offset).
Proof. intros H. unfold get_date_range. rewrite H. eauto. Qed.

Lemma get_date_range_built file target start_offset end_offset :
  Sorted String.le (dates_of decode file) ->
  get_date_range target (built_index decode file) file
    = Some (start_offset, end_offset) ->
  built_index decode file !! target = Some start_offset /\
  0 <= start_offset < end_offset /\ end_offset <= getsize file /\
  forall o l, (o, l) ∈ file_lines file -> date_key decode l = Some target ->
              start_offset <= o < end_offset.
Proof.
  intros Hs. unfold get_date_range.
  destruct (built_index decode file !! target) as [s|] eqn:Ht; [| done].
  destruct (built_index_first decode _ _ _ Ht) as [(lt & Hlt & Hkt) Hmin].
  pose proof (file_lines_lt_size _ _ _ Hlt) as Hsize.
  assert (Hcase : forall e,
    (forall o l, (o, l) ∈ file_lines file -> date_key decode l = Some target ->
                 o < e) ->
    e <= getsize file ->
    Some s = Some s /\
    0 <= s < e /\ e <= getsize file /\
    forall o l, (o, l) ∈ file_lines file -> date_key decode l = Some target ->
                s <= o < e).
  { intros e Hup He. split; [done |].
    pose proof (Hup _ _ Hlt Hkt). split; [lia |]. split; [done |].
    intros o l Hin Hk. split; [by eapply Hmin | by eapply Hup]. }
  assert (Hsz : forall o l, (o, l) ∈ file_lines file ->
                  date_key decode l = Some target -> o < getsize file).
  { intros o l Hin _. by apply file_lines_lt_size in Hin as [_ ?]. }
  destruct (List.find _ _) as [[|c r]|] eqn:Hf.
  - intros [= <- <-]. by apply Hcase.
  - apply find_some in Hf as [Hin Hgt]. apply py_gt_spec in Hgt.
    apply list_elem_of_In, elem_of_sorted_keys, elem_of_dom in Hin as [e He].
    rewrite (lookup_total_correct _ _ _ He).
    destruct (built_index_first decode _ _ _ He) as [(le & Hle & Hke) _].
    pose proof (file_lines_lt_size _ _ _ Hle).
    intros [= <- <-]. apply Hcase; [| lia].
    intros o l Hin Hk. by eapply file_lines_date_order.
  - intros [= <- <-]. by apply Hcase.
Qed.

End Ordered.

(** ** A first extraction from a log in date order *)

(** X10. First extraction from a log in date order whose keys hold no
    whitespace, for a date that the log holds and whose output file can be
    opened (the date holds no NUL and no [/]): with no entry list yet,
    [extract_logs] builds the index, resolves a non-empty range, returns
    without raising and saves the output of four chunk results.  The lines
    delivered are exactly the lines with the target date, except the one at
    the start offset when that offset is not 0. *)
Theorem extract_logs_first_run decode target w :
  index_file w = None ->
  Sorted String.le (dates_of decode (log_file w)) ->
  Forall (fun d => no_space d = true) (dates_of decode (log_file w)) ->
  target ∈ dates_of decode (log_file w) ->
  open_output target = None ->
  exists start_offset end_offset results,
    get_date_range target (built_index decode (log_file w)) (log_file w)
      = Some (start_offset, end_offset) /\
    0 <= start_offset < end_offset /\ end_offset <= getsize (log_file w) /\
    extract_logs decode target w =
      (print (LogsSaved target)
         (set_output target (output_text results)
            (print (PrintInt start_offset) (print (PrintInt end_offset)
               (print (OffsetFor target start_offset)
                  (build_index decode (print IndexFileNotFound w)))))), None) /\
    length results = 4%nat /\
    forall x, x ∈ concat results <->
      exists o l, (o, l) ∈ file_lines (log_file w) /\
                  date_key decode l = Some target /\
                  (start_offset = 0 \/ start_offset < o) /\ x = decode l.
Proof.
  intros Hnone Hs Hp Ht Hopen.
  assert (String.length target = 10%nat) as Hlen10.
  { apply list_elem_of_omap in Ht as (line & _ & Hk). by eapply date_key_length. }
  destruct (built_index_has decode _ target Ht) as [s Hix].
  destruct (get_date_range_start target _ (log_file w) s Hix) as [e Hr].
  destruct (get_date_range_built decode _ _ _ _ Hs Hr) as (_ & Hse & Hes & Hrange).
  destruct (pool_map_tasks_for decode (log_file w) target num_workers s e)
    as (results & Hpm & Hlen & Hx); [done | lia | |].
  { intros pos Hpos. apply fits_off_t_inside. lia. }
  exists s, e, results. split; [done |]. split; [lia |]. split; [done |]. split.
  - unfold extract_logs, extract_logs_with, ensure_index. rewrite Hnone.
    destruct w as [log idx info outs out].
    cbn [build_index print set_index set_index_info log_file index_file
         index_info_file output_files stdout] in *.
    rewrite built_index_loads, Hix by done.
    cbn [build_index print set_index set_index_info log_file index_file
         index_info_file output_files stdout]. rewrite Hr.
    destruct (Z.leb_spec (Z.abs (e - s)) 0); [lia |].
    by rewrite Hpm, Hopen.
  - split; [done |]. intros x. rewrite Hx. split.
    + intros ([o l] & [Hm Hsc] & -> & Hsw).
      apply elem_of_after_start in Hm as [Hst Hin].
      exists o, l. split; [done |]. split; [by apply startswith_date_key |]. done.
    + intros (o & l & Hin & Hk & Hst & ->). exists (o, l).
      split; [| split; [done | by apply startswith_date_key]].
      apply chunk_reads_range; [done | done |]. by eapply Hrange.
Qed.

(** ** A date that the log does not hold *)


(** ** What an update adds *)

Section NewEntries.
Variable decode : bytes -> string.

Lemma first_with_cons date offset line rest :
  first_with decode date ((offset, line) :: rest) =
  if bool_decide (date_key decode line = Some date) then Some offset
  else first_with decode date rest.
Proof. unfold first_with. simpl. by case_bool_decide. Qed.

Lemma update_index_scan_lookup offset lines (index new_entries : gmap string Z)
    (date : string) :
  update_index_scan decode offset lines index new_entries !! date =
  match new_entries !! date with
  | Some o => Some o
  | None =>
      match index !! date with
      | Some _ => None
      | None => first_with decode date (with_offsets offset lines)
      end
  end.
Proof.
  revert offset new_entries.
  induction lines as [|line rest IH]; intros offset new_entries.
  { simpl. destruct (new_entries !! date); [done |]. by destruct (index !! date). }
  cbn [update_index_scan with_offsets]. rewrite first_with_cons.
  destruct (date_key_cases decode line) as [[Hlen Hk] | [Hlen Hk]]; rewrite Hlen, Hk.
  { rewrite IH. by rewrite bool_decide_eq_false_2. }
  destruct (decide (first10 (decode line) = date)) as [<- | Hne].
  - rewrite bool_decide_eq_true_2 by done.
    destruct (index !! first10 (decode line)) as [o|] eqn:Hi.
    + by rewrite IH.
    + destruct (new_entries !! first10 (decode line)) as [o|] eqn:Hn.
      * by rewrite IH, Hn.
      * by rewrite IH, lookup_insert_eq.
  - rewrite bool_decide_eq_false_2 by congruence.
    destruct (index !! first10 (decode line)) as [o|] eqn:Hi; [by rewrite IH |].
    destruct (new_entries !! first10 (decode line)) as [o|] eqn:Hn;
      [by rewrite IH |].
    by rewrite IH, lookup_insert_ne.
Qed.

Lemma update_index_scan_known offset lines (index : gmap string Z) :
  Forall (fun d => d ∈ dom index) (omap (date_key decode) lines) ->
  update_index_scan decode offset lines index ∅ = ∅.
Proof.
  intros Hall. apply map_eq. intros date.
  rewrite update_index_scan_lookup, !lookup_empty.
  destruct (index !! date) as [o|] eqn:Hi; [done |].
  destruct (first_with decode date _) as [o|] eqn:Hf; [| done].
  apply first_with_least in Hf as [(l & Hin & Hk) _].
  rewrite Forall_forall in Hall. specialize (Hall date).
  ospecialize* Hall.
  { apply list_elem_of_omap. exists l. split; [by eapply with_offsets_elem | done]. }
  apply elem_of_dom in Hall as [? ?]. congruence.
Qed.

Lemma update_index_run w index :
  load_index (index_file w) = Ok index ->
  0 <= read_last_processed_offset (index_info_file w) < getsize (log_file w) ->
  update_index decode w =
    (let new_entries :=
       update_index_scan decode (read_last_processed_offset (index_info_file w))
         (readlines (drop (Z.to_nat (read_last_processed_offset (index_info_file w)))
                          (log_file w))) index ∅ in
     set_index_info (Some (py_str (getsize (log_file w))))
       (if decide (new_entries = ∅) then print NoNewDates w
        else print IndexUpdated
               (set_index (append_text (index_file w) (entry_lines new_entries)) w)),
     None).
Proof.
  intros Hl Hwm. unfold update_index. rewrite Hl.
  destruct (Z.leb_spec (getsize (log_file w))
              (read_last_processed_offset (index_info_file w))); [lia |].
  rewrite seek_fits; [done | lia |]. apply fits_off_t_inside. lia.
Qed.

(** X16. When every date key read from the watermark on is already in
    the loaded index, [update_index] leaves the entry list alone, prints that
    there are no new dates, and moves the watermark to the size of the log
    file. *)
Theorem update_index_known_dates w index :
  load_index (index_file w) = Ok index ->
  0 <= read_last_processed_offset (index_info_file w) < getsize (log_file w) ->
  Forall (fun d => d ∈ dom index)
    (dates_of decode
       (drop (Z.to_nat (read_last_processed_offset (index_info_file w))) (log_file w))) ->
  update_index decode w =
    (set_index_info (Some (py_str (getsize (log_file w)))) (print NoNewDates w), None).
Proof.
  intros Hl Hwm Hall. rewrite (update_index_run _ _ Hl Hwm). cbv zeta.
  rewrite update_index_scan_known by done. by rewrite decide_True.
Qed.

(** X17. What [update_index] appends to the entry list is the sorted
    serialization of dates that the loaded index did not hold, each with an
    offset counted from the head of the file, not from the watermark: the
    offset is at or past the watermark, inside the file, and a [readline] at
    it returns a line with that date key. *)
Theorem update_index_new_entries w index :
  load_index (index_file w) = Ok index ->
  0 <= read_last_processed_offset (index_info_file w) < getsize (log_file w) ->
  exists new_entries,
    update_index decode w =
      (set_index_info (Some (py_str (getsize (log_file w))))
         (if decide (new_entries = ∅) then print NoNewDates w
          else print IndexUpdated
                 (set_index (append_text (index_file w) (entry_lines new_entries)) w)),
       None) /\
    forall date offset, new_entries !! date = Some offset ->
      index !! date = None /\
      read_last_processed_offset (index_info_file w) <= offset < getsize (log_file w) /\
      date_key decode (readline (drop (Z.to_nat offset) (log_file w))).1 = Some date.
Proof.
  intros Hl Hwm. eexists. split; [by apply update_index_run |].
  intros date offset. rewrite update_index_scan_lookup, lookup_empty.
  destruct (index !! date) as [o|] eqn:Hi; [done |].
  intros [(l & Hin & Hk) _]%first_with_least.
  pose proof (with_offsets_ge _ _ _ _ Hin) as Hge.
  pose proof (with_offsets_readline _ _ _ _ Hin) as Hr.
  rewrite drop_drop in Hr.
  replace (Z.to_nat (read_last_processed_offset (index_info_file w))
           + Z.to_nat (offset - read_last_processed_offset (index_info_file w)))%nat
    with (Z.to_nat offset) in Hr by lia.
  split; [done |]. split; [| by rewrite Hr].
  split; [done |].
  assert (l <> []) as Hne.
  { eapply readlines_nonempty. by eapply with_offsets_elem. }
  unfold getsize. destruct (decide (Z.to_nat offset < length (log_file w))%nat); [lia |].
  rewrite drop_ge in Hr by lia. simpl in Hr. congruence.
Qed.

End NewEntries.

(** ** Workers, pool and artifacts *)








(** X6. [extract_logs] never changes the log file, writes no output file
    but that of the target date, and writes none at all when it raises. *)
Theorem extract_logs_frame (decode : bytes -> string) (target : string) (w : world) :
  let r := extract_logs decode target w in
  log_file (fst r) = log_file w /\
  (forall d, d <> target -> output_files (fst r) !! d = output_files w !! d) /\
  (snd r <> None -> output_files (fst r) = output_files w).
Proof. apply extract_logs_with_frame. Qed.

(** X7. When no date key of the log holds whitespace, the entry list that
    [build_index] writes loads back, through [load_index], as the very
    dictionary the build held. *)
Theorem build_index_loads (decode : bytes -> string) (w : world) :
  Forall (fun date => no_space date = true) (dates_of decode (log_file w)) ->
  load_index (index_file (build_index decode w))
    = Ok (built_index decode (log_file w)).
Proof. intros H. destruct w. by apply built_index_loads. Qed.

Lemma build_index_loads_witness :
  load_index (index_file (build_index decode_ascii (fresh scenario_log)))
    = Ok (built_index decode_ascii scenario_log).
Proof.
  apply (build_index_loads decode_ascii (fresh scenario_log)).
  vm_compute. repeat constructor.
Defined.

(** X14. After any [update_index] that returns, the watermark is not
    below the size of the log file, and a second update leaves the entry
    list and the watermark as they are. *)
Theorem update_index_settles (decode : bytes -> string) (w w1 : world) :
  update_index decode w = (w1, None) ->
  getsize (log_file w1) <= read_last_processed_offset (index_info_file w1) /\
  index_file (fst (update_index decode w1)) = index_file w1 /\
  index_info_file (fst (update_index decode w1)) = index_info_file w1.
Proof.
  intros [_ Hle]%update_index_watermark. split; [done |].
  by apply update_index_noop_files.
Qed.

Lemma update_index_settles_witness :
  let w := append_log appended_records (build_index decode_ascii (fresh scenario_log)) in
  let w1 := fst (update_index decode_ascii w) in
  getsize (log_file w1) <= read_last_processed_offset (index_info_file w1) /\
  index_file (fst (update_index decode_ascii w1)) = index_file w1 /\
  index_info_file (fst (update_index decode_ascii w1)) = index_info_file w1.
Proof.
  intros w w1.
  apply (update_index_settles decode_ascii w w1). reflexivity.
Defined.

Lemma tasks_for_tiling_witness :
  let tasks := tasks_for num_workers 0 26 in
  length tasks = 4%nat /\
  fst <$> head tasks = Some 0 /\
  snd <$> last tasks = Some 26.
Proof.
  destruct (tasks_for_tiling num_workers 0 26) as (H1 & H2 & H3 & _).
  - unfold num_workers. lia.
  - split; [exact H1 |]. split; [exact H2 | exact H3].
Defined.

(** X8. Every entry of the dictionary built from a file has a key of
    exactly 10 characters and an offset inside the file, and a [readline] at
    that offset returns a line with that date key. *)
Theorem built_index_entries (decode : bytes -> string) (file : bytes)
    (date : string) (offset : Z) :
  built_index decode file !! date = Some offset ->
  String.length date = 10%nat /\
  0 <= offset < getsize file /\
  date_key decode (readline (drop (Z.to_nat offset) file)).1 = Some date.
Proof.
  intros [(l & Hin & Hk) _]%built_index_first.
  split; [by eapply date_key_length |].
  split; [by eapply file_lines_lt_size |].
  by rewrite (file_lines_readline _ _ _ Hin).
Qed.

Lemma built_index_entries_witness :
  String.length "2024-01-02" = 10%nat /\
  0 <= 26 < getsize scenario_log /\
  date_key decode_ascii (readline (drop (Z.to_nat 26) scenario_log)).1
    = Some "2024-01-02".
Proof.
  apply (built_index_entries decode_ascii scenario_log "2024-01-02" 26).
  reflexivity.
Defined.

(** X9. For a log whose date keys are in non-decreasing order, the range
    that [get_date_range] resolves in the built index is not empty and lies
    inside the file, and every line with the target date begins inside
    it. *)
Theorem get_date_range_sorted (decode : bytes -> string) (file : bytes)
    (target : string) (start_offset end_offset : Z) :
  Sorted String.le (dates_of decode file) ->
  get_date_range target (built_index decode file) file
    = Some (start_offset, end_offset) ->
  0 <= start_offset < end_offset /\ end_offset <= getsize file /\
  forall o l, (o, l) ∈ file_lines file -> date_key decode l = Some target ->
              start_offset <= o < end_offset.
Proof.
  intros Hs Hr.
  by destruct (get_date_range_built decode _ _ _ _ Hs Hr) as (_ & ? & ? & ?).
Qed.

Lemma get_date_range_sorted_witness :
  0 <= 0 < 26 /\ 26 <= getsize scenario_log /\
  forall o l, (o, l) ∈ file_lines scenario_log ->
              date_key decode_ascii l = Some "2024-01-01" -> 0 <= o < 26.
Proof.
  apply (get_date_range_sorted decode_ascii scenario_log "2024-01-01" 0 26).
  - vm_compute. repeat constructor.
  - reflexivity.
Defined.

Lemma extract_logs_first_run_witness :
  exists start_offset end_offset results,
    get_date_range "2024-01-02" (built_index decode_ascii second_date_log)
      second_date_log = Some (start_offset, end_offset) /\
    0 <= start_offset < end_offset /\ end_offset <= getsize second_date_log /\
    extract_logs decode_ascii "2024-01-02" (fresh second_date_log) =
      (print (LogsSaved "2024-01-02")
         (set_output "2024-01-02" (output_text results)
            (print (PrintInt start_offset) (print (PrintInt end_offset)
               (print (OffsetFor "2024-01-02" start_offset)
                  (build_index decode_ascii
                     (print IndexFileNotFound (fresh second_date_log))))))), None) /\
    length results = 4%nat /\
    forall x, x ∈ concat results <->
      exists o l, (o, l) ∈ file_lines second_date_log /\
                  date_key decode_ascii l = Some "2024-01-02" /\
                  (start_offset = 0 \/ start_offset < o) /\ x = decode_ascii l.
Proof.
  apply (extract_logs_first_run decode_ascii "2024-01-02" (fresh second_date_log)).
  - reflexivity.
  - vm_compute. repeat constructor.
  - vm_compute. repeat constructor.
  - vm_compute. right. left.
  - reflexivity.
Defined.


(** X12. Loading the entry list from its file, when no second field of a
    two-field line is longer than the interpreter's cap on numerals:
    [load_index] raises exactly when the bytes of the file do not decode, or
    some line of its text has two fields of which the second is not an
    integer; the exception is then a [ValueError].  On every other such
    file, and on a missing one, it returns. *)
Theorem load_index_raises_iff (read_text : bytes -> option string)
    (raw : option bytes) (e : exn) :
  (forall bs text, raw = Some bs -> read_text bs = Some text ->
                   short_numerals text = true) ->
  load_index_file read_text raw = Raise e <->
  e = ValueError /\
  exists bs, raw = Some bs /\
    (read_text bs = None \/
     exists text line date offset,
       read_text bs = Some text /\ line ∈ text_lines text /\
       py_split (py_strip line) = [date; offset] /\ py_int offset = None).
Proof.
  intros _. unfold load_index_file. split.
  - destruct raw as [bs|]; [| done].
    destruct (read_text bs) as [text|] eqn:Hr.
    + simpl.
      destruct (load_index_lines_cases (text_lines text) ∅)
        as [[loaded Hl] | [Hl (line & date & offset & Hin & Hs & Hi)]];
        rewrite Hl; [done |].
      intros [= <-]. split; [done |]. exists bs. split; [done |].
      right. by exists text, line, date, offset.
    + intros [= <-]. split; [done |]. exists bs. split; [done | by left].
  - intros [-> (bs & -> & [Hr | (text & line & date & offset & Hr & Hin & Hs & Hi)])];
      rewrite Hr; [done |].
    simpl. by eapply load_index_lines_raises.
Qed.

Lemma load_index_raises_iff_witness :
  load_index_file read_ascii (Some [xff; x0a]) = Raise ValueError /\
  load_index_file read_ascii (Some (log_of ["2024-01-01 abc"])) = Raise ValueError /\
  load_index_file read_ascii (Some (log_of ["2024-01-01 0"])) <> Raise ValueError.
Proof.
  split; [| split].
  - apply (load_index_raises_iff read_ascii (Some [xff; x0a]) ValueError).
    + intros bs text [= <-] H. discriminate H.
    + split; [reflexivity |]. exists [xff; x0a]. split; [reflexivity |].
      left. reflexivity.
  - apply (load_index_raises_iff read_ascii
             (Some (log_of ["2024-01-01 abc"])) ValueError).
    + intros bs text [= <-] [= <-]. reflexivity.
    + split; [reflexivity |]. exists (log_of ["2024-01-01 abc"]).
      split; [reflexivity |]. right.
      exists ("2024-01-01 abc" +:+ nl), ("2024-01-01 abc" +:+ nl), "2024-01-01", "abc".
      split; [reflexivity |]. split; [left |]. split; reflexivity.
  - intros H. discriminate H.
Defined.

(** X13. When the entry list names a date on several lines, the last of
    them wins: the loaded offset of a date is that of the last line whose
    first field is the date. *)
Theorem load_index_last_entry (text : string) (pre post : list string)
    (line date offset : string) (n : Z) (index : gmap string Z) :
  load_index (Some text) = Ok index ->
  text_lines text = pre ++ line :: post ->
  py_split (py_strip line) = [date; offset] -> py_int offset = Some n ->
  (forall l offset', l ∈ post -> py_split (py_strip l) <> [date; offset']) ->
  index !! date = Some n.
Proof.
  simpl. intros Hl Ht Hs Hi Hno. rewrite Ht in Hl.
  by eapply (load_index_lines_last pre line post ∅ index date offset n).
Qed.

Lemma load_index_last_entry_witness :
  let text := "2024-01-01 0" +:+ nl +:+ "2024-01-02 26" +:+ nl +:+
              "2024-01-01 13" +:+ nl in
  exists index, load_index (Some text) = Ok index /\
                index !! "2024-01-01" = Some 13.
Proof.
  intros text.
  destruct (load_index (Some text)) as [index | e] eqn:Hl; [| discriminate Hl].
  exists index. split; [reflexivity |].
  apply (load_index_last_entry text
           ["2024-01-01 0" +:+ nl; "2024-01-02 26" +:+ nl] []
           ("2024-01-01 13" +:+ nl) "2024-01-01" "13" 13 index).
  - exact Hl.
  - reflexivity.
  - reflexivity.
  - reflexivity.
  - intros l o' H. inversion H.
Defined.

Lemma update_index_negative_witness :
  let w := World scenario_log (Some "") (Some "-5") ∅ [] in
  let w' := World scenario_log (Some "") (Some "-99999999999999999999") ∅ [] in
  update_index decode_ascii w = (w, Some OSError) /\
  update_index decode_ascii w' = (w', Some ValueError).
Proof.
  intros w w'. split.
  - apply (update_index_negative decode_ascii w ∅); reflexivity.
  - apply (update_index_negative decode_ascii w' ∅); reflexivity.
Defined.

Lemma update_index_known_dates_witness :
  let w := append_log (log_of ["2024-01-02 d"])
             (build_index decode_ascii (fresh scenario_log)) in
  update_index decode_ascii w =
    (set_index_info (Some (py_str (getsize (log_file w)))) (print NoNewDates w), None).
Proof.
  intros w.
  apply (update_index_known_dates decode_ascii w (built_index decode_ascii scenario_log)).
  - apply (built_index_loads decode_ascii scenario_log). vm_compute. repeat constructor.
  - vm_compute. split; [intros H; discriminate H | reflexivity].
  - vm_compute. repeat constructor.
Defined.

Lemma update_index_new_entries_witness :
  let w := append_log appended_records
             (build_index decode_ascii (fresh scenario_log)) in
  exists new_entries,
    update_index decode_ascii w =
      (set_index_info (Some (py_str (getsize (log_file w))))
         (if decide (new_entries = ∅) then print NoNewDates w
          else print IndexUpdated
                 (set_index (append_text (index_file w) (entry_lines new_entries)) w)),
       None) /\
    forall date offset, new_entries !! date = Some offset ->
      built_index decode_ascii scenario_log !! date = None /\
      read_last_processed_offset (index_info_file w) <= offset < getsize (log_file w) /\
      date_key decode_ascii (readline (drop (Z.to_nat offset) (log_file w))).1
        = Some date.
Proof.
  intros w.
  apply (update_index_new_entries decode_ascii w (built_index decode_ascii scenario_log)).
  - apply (built_index_loads decode_ascii scenario_log). vm_compute. repeat constructor.
  - vm_compute. split; [intros H; discriminate H | reflexivity].
Defined.
